(** * pysynphot Observation: binning of a spectrum through a bandpass

    A shallow embedding of [lib/observation.py] and [lib/newobservation.py]
    and the proofs of their specification.

    Arithmetic is exact: a wavelength or a flux is a rational number, an
    array is a list.  The only operations of the source that leave the
    rationals are numpy's true division by a value that may be zero, whose
    result is a [float64] that can be [Inf] or [NaN], and [math.sqrt],
    whose result is kept symbolic.  The source computes in binary64: what
    is proved here of a computed value is an equality in exact arithmetic,
    which rounding perturbs, and the endpoints of the bins are given a
    second time in binary64, [compute_endpoints_float64], to show where
    rounding changes the order of the values. *)

From Stdlib Require Import PrimFloat.
From Stdlib Require Import QArith Lqa Lia ZArith String Ascii Bool.
From stdpp Require Import base list.

Open Scope Q_scope.

(** ** Python values and exceptions *)

Inductive exn : Type :=
| ValueError (msg : string)
| KeyError (msg : string)
| IndexError (msg : string)
| AttributeError (msg : string)
| NotImplementedError (msg : string)
| EmptyInputError
| OtherError (msg : string).

Inductive result (A : Type) : Type :=
| Ok (a : A)
| Raise (e : exn).

Arguments Ok {A} a.
Arguments Raise {A} e.

Abbreviation array := (list Q).

(** A Python float that is not kept as a rational: [math.sqrt x]. *)
Inductive pyfloat : Type :=
| Rat (q : Q)
| Sqrt (q : Q).

(** [x[i]] for [0 <= i]. *)
Definition getitem {A : Type} (a : list A) (i : nat) : result A :=
  match a !! i with
  | Some x => Ok x
  | None => Raise (IndexError "index out of bounds")
  end.

(** [x[-1]]. *)
Definition getitem_last {A : Type} (a : list A) : result A :=
  match last a with
  | Some x => Ok x
  | None => Raise (IndexError "index out of bounds")
  end.

(** [x[i] = v]. *)
Definition setitem {A : Type} (a : list A) (i : nat) (v : A) : result (list A) :=
  if decide (i < length a)%nat then Ok (<[i := v]> a)
  else Raise (IndexError "index out of bounds").

(** [math.sqrt]: a negative argument is a math domain error. *)
Definition math_sqrt (x : Q) : result pyfloat :=
  if Qle_bool 0 x then Ok (Sqrt x) else Raise (ValueError "math domain error").

(** [s.lower()] on ASCII. *)
Definition lower_ascii (c : ascii) : ascii :=
  let n := nat_of_ascii c in
  if ((65 <=? n) && (n <=? 90))%nat then ascii_of_nat (n + 32) else c.

Fixpoint lower (s : string) : string :=
  match s with
  | EmptyString => EmptyString
  | String c r => String (lower_ascii c) (lower r)
  end.

(** [s.startswith(p)]. *)
Definition startswith (s p : string) : bool := String.prefix p s.

(** ** numpy *)

Module numpy.

(** The value of a float64 after a true division. *)
Inductive float64 : Type :=
| Finite (q : Q)
| Inf
| NaN.

(** [a / b] on float64 scalars: division by zero does not raise, it
    gives [nan] for [0/0] and an infinity otherwise. *)
Definition true_divide (a b : Q) : float64 :=
  if Qeq_bool b 0 then (if Qeq_bool a 0 then NaN else Inf)
  else Finite (a / b).

(** Position of a slice bound: a negative bound counts from the end,
    and every bound is clipped to the array. *)
Definition bound (len : nat) (i : Z) : nat :=
  if (i <? 0)%Z then Z.to_nat (Z.max 0 (i + Z.of_nat len))
  else Nat.min (Z.to_nat i) len.

(** [a[first:last]]. *)
Definition slice {A : Type} (a : list A) (first last : Z) : list A :=
  let f := bound (length a) first in
  let l := bound (length a) last in
  take (l - f) (drop f a).

(** [a[1:]] and [a[:-1]]. *)
Definition from1 {A : Type} (a : list A) : list A := slice a 1 (Z.of_nat (length a)).
Definition upto_last {A : Type} (a : list A) : list A := slice a 0 (-1).

(** Elementwise operations on arrays of one shape.  [divide] is the
    quotient for divisors that are not zero; at a zero divisor numpy
    gives an infinity or [nan], which an [array] does not hold: what is
    proved of the quotients of [pivot], its only caller, is for
    wavelengths that are not zero. *)
Definition add (a b : array) : array := zip_with Qplus a b.
Definition subtract (a b : array) : array := zip_with Qminus a b.
Definition multiply (a b : array) : array := zip_with Qmult a b.
Definition divide (a b : array) : array := zip_with Qdiv a b.
Definition divide_by (a : array) (c : Q) : array := (fun x => x / c) <$> a.
Definition subtract_int (a b : list Z) : list Z := zip_with Z.sub a b.
Definition add_int (a b : list Z) : list Z := zip_with Z.add a b.

(** [a.sum()]; the sum of no element is 0. *)
Definition sum (a : array) : Q := foldr Qplus 0 a.

(** [N.searchsorted(a, v)] for one value, [a] ascending: the leftmost
    index at which [v] can be inserted, the number of leading elements
    below [v]. *)
Fixpoint searchsorted1 (a : array) (v : Q) : nat :=
  match a with
  | [] => 0%nat
  | x :: r => if Qlt_le_dec x v then S (searchsorted1 r v) else 0%nat
  end.

Definition searchsorted (a vs : array) : list Z :=
  (fun v => Z.of_nat (searchsorted1 a v)) <$> vs.

(** [N.union1d]: the sorted union of the values, each kept once. *)
Fixpoint insert1 (x : Q) (a : array) : array :=
  match a with
  | [] => [x]
  | y :: r =>
      match x ?= y with
      | Lt => x :: y :: r
      | Eq => y :: r
      | Gt => y :: insert1 x r
      end
  end.

Definition union1d (a b : array) : array := foldr insert1 [] (a ++ b).

End numpy.

Import numpy.

(** ** The [spectrum] module

    [Observation] derives from [spectrum.CompositeSourceSpectrum]; the
    functions of that module the two files call are given here. *)

Module spectrum.

(** Modelled from the spec: [spectrum.MergeWaveSets] (WavesetMerger) is
    not part of the two files.  It returns the union of the values of
    its inputs, ascending, exact duplicates removed, and fails with
    [EmptyInputError] when an input grid is empty. *)
Definition MergeWaveSets (waveset1 waveset2 : array) : result array :=
  match waveset1, waveset2 with
  | [], _ => Raise EmptyInputError
  | _, [] => Raise EmptyInputError
  | _, _ => Ok (union1d waveset1 waveset2)
  end.

(** Modelled from the spec: [trapezoidIntegration] (TrapezoidIntegrator),
    a method of the base class, is not part of the two files.  Over the
    whole grid it is the sum of [(f[i]+f[i+1])/2 * (w[i+1]-w[i])], and
    0 when the grid has fewer than two points. *)
Definition trapezoidIntegration (w f : array) : Q :=
  sum (multiply (divide_by (add (from1 f) (upto_last f)) 2)
                (subtract (from1 w) (upto_last w))).

End spectrum.

(** What the source spectrum, the bandpass and the composite base class
    offer to an [Observation]. *)
Class Collaborators (Spectrum Bandpass : Type) : Type := {
  (** [spectrum.check_overlap(bandpass)] *)
  check_overlap : Spectrum -> Bandpass -> string;
  (** [spectrum.taper()]; [AttributeError] when the spectrum has no such method *)
  taper : Spectrum -> result Spectrum;
  (** [spectrum.tabulate()] *)
  tabulate : Spectrum -> result Spectrum;
  (** [spectrum.wave] *)
  spectrum_wave : Spectrum -> array;
  (** [bandpass.obsmode.bandWave()], which may return [None] *)
  bandWave : Bandpass -> result (option array);
  (** [str(bandpass)] *)
  str : Bandpass -> string;
  (** [wave] of the composite of a spectrum and a bandpass *)
  composite_wave : Spectrum -> Bandpass -> array;
  (** [__call__] of the composite: the flux on a grid, one value per point,
      each a rational: a flux that is an infinity or [nan] is not held *)
  composite_call : Spectrum -> Bandpass -> array -> array;
  composite_call_length :
    forall s b ws, length (composite_call s b ws) = length ws
}.

(** ** The state of an [Observation] and of the output stream *)

Section Observation.

Context {Spectrum Bandpass : Type} {C : Collaborators Spectrum Bandpass}.

(** The attributes of an instance; [None] is an attribute not yet set. *)
Record Observation : Type := mkObservation {
  spectrum : option Spectrum;
  bandpass : option Bandpass;
  component1 : option Spectrum;
  component2 : option Bandpass;
  binwave : option array;
  _indices : option (list Z);
  _indices_last : option (list Z);
  _deltaw : option array;
  _binflux : option (list float64);
  _intwave : option array
}.

Record World : Type := mkWorld {
  self : Observation;
  stdout : list string
}.

(** Computations that read and write the instance, print, and may raise. *)
Definition M (A : Type) : Type := World -> result A * World.

Definition ret {A : Type} (a : A) : M A := fun w => (Ok a, w).

Definition raise {A : Type} (e : exn) : M A := fun w => (Raise e, w).

Definition bind {A B : Type} (m : M A) (k : A -> M B) : M B :=
  fun w =>
    match m w with
    | (Ok a, w') => k a w'
    | (Raise e, w') => (Raise e, w')
    end.

Definition lift {A : Type} (r : result A) : M A := fun w => (r, w).

Definition getattr {A : Type} (f : Observation -> option A) (name : string) : M A :=
  fun w =>
    match f (self w) with
    | Some a => (Ok a, w)
    | None => (Raise (AttributeError name), w)
    end.

Definition modify (f : Observation -> Observation) : M unit :=
  fun w => (Ok tt, mkWorld (f (self w)) (stdout w)).

Definition print (msg : string) : M unit :=
  fun w => (Ok tt, mkWorld (self w) (stdout w ++ [msg])).

End Observation.

Arguments Observation : clear implicits.
Arguments World : clear implicits.
Arguments M : clear implicits.

Declare Scope py_scope.
Delimit Scope py_scope with py.
Notation "x <- m ;; k" := (bind m (fun x => k))
  (at level 100, m at next level, right associativity) : py_scope.
Notation "m >> k" := (bind m (fun _ => k))
  (at level 100, right associativity) : py_scope.

Open Scope py_scope.
Open Scope string_scope.

(** ** Code shared by the two modules *)

Section Shared.

Context {Spectrum Bandpass : Type} {C : Collaborators Spectrum Bandpass}.

Abbreviation Obs := (Observation Spectrum Bandpass).
Abbreviation Py := (M Spectrum Bandpass).

(** A new instance: no attribute is set. *)
Definition new_object : Obs :=
  mkObservation None None None None None None None None None None.

Definition set_spectrum (v : Spectrum) (o : Obs) : Obs :=
  mkObservation (Some v) (bandpass o) (component1 o) (component2 o) (binwave o)
    (_indices o) (_indices_last o) (_deltaw o) (_binflux o) (_intwave o).

Definition set_bandpass (v : Bandpass) (o : Obs) : Obs :=
  mkObservation (spectrum o) (Some v) (component1 o) (component2 o) (binwave o)
    (_indices o) (_indices_last o) (_deltaw o) (_binflux o) (_intwave o).

Definition set_components (s : Spectrum) (b : Bandpass) (o : Obs) : Obs :=
  mkObservation (spectrum o) (bandpass o) (Some s) (Some b) (binwave o)
    (_indices o) (_indices_last o) (_deltaw o) (_binflux o) (_intwave o).

(** [self.binwave = v]; [v] may be Python's [None]. *)
Definition set_binwave (v : option array) (o : Obs) : Obs :=
  mkObservation (spectrum o) (bandpass o) (component1 o) (component2 o) v
    (_indices o) (_indices_last o) (_deltaw o) (_binflux o) (_intwave o).

Definition set_indices (v : list Z) (o : Obs) : Obs :=
  mkObservation (spectrum o) (bandpass o) (component1 o) (component2 o) (binwave o)
    (Some v) (_indices_last o) (_deltaw o) (_binflux o) (_intwave o).

Definition set_indices_last (v : list Z) (o : Obs) : Obs :=
  mkObservation (spectrum o) (bandpass o) (component1 o) (component2 o) (binwave o)
    (_indices o) (Some v) (_deltaw o) (_binflux o) (_intwave o).

Definition set_deltaw (v : array) (o : Obs) : Obs :=
  mkObservation (spectrum o) (bandpass o) (component1 o) (component2 o) (binwave o)
    (_indices o) (_indices_last o) (Some v) (_binflux o) (_intwave o).

Definition set_binflux (v : list float64) (o : Obs) : Obs :=
  mkObservation (spectrum o) (bandpass o) (component1 o) (component2 o) (binwave o)
    (_indices o) (_indices_last o) (_deltaw o) (Some v) (_intwave o).

Definition set_intwave (v : array) (o : Obs) : Obs :=
  mkObservation (spectrum o) (bandpass o) (component1 o) (component2 o) (binwave o)
    (_indices o) (_indices_last o) (_deltaw o) (_binflux o) (Some v).

(** [spectrum.CompositeSourceSpectrum.__init__(self, s, b, 'multiply')]. *)
Definition CompositeSourceSpectrum__init__ (s : Spectrum) (b : Bandpass) : Py unit :=
  modify (set_components s b).

(** [self.wave], the natural waveset of the composite. *)
Definition self_wave : Py array :=
  c1 <- getattr component1 "component1" ;;
  c2 <- getattr component2 "component2" ;;
  ret (composite_wave c1 c2).

(** [self(wavelengths)]. *)
Definition self_call (ws : array) : Py array :=
  c1 <- getattr component1 "component1" ;;
  c2 <- getattr component2 "component2" ;;
  ret (composite_call c1 c2 ws).

(** Lines 93-97 of [initbinflux], the same in the two files: the
    endpoints of the summation bins. *)
Definition compute_endpoints (binwave : array) : result array :=
  let midpoints := divide_by (add (from1 binwave) (upto_last binwave)) 2 in
  (* endpoints = N.empty(len(midpoints)+2); endpoints[1:-1] = midpoints *)
  match getitem binwave 0, getitem midpoints 0 with
  | Ok b0, Ok m0 =>
      let first := b0 - (m0 - b0) in
      match getitem_last binwave, getitem_last midpoints with
      | Ok bl, Ok ml =>
          let final := bl + (bl - ml) in
          Ok (first :: midpoints ++ [final])
      | Raise e, _ | _, Raise e => Raise e
      end
  | Raise e, _ | _, Raise e => Raise e
  end.

(** Lines 93-97 of [initbinflux] in binary64, the arithmetic of the
    source: every sum, difference and quotient is rounded to the nearest
    float64. *)
Definition compute_endpoints_float64 (binwave : list float) : result (list float) :=
  let midpoints :=
    (fun s => PrimFloat.div s 2%float)
      <$> zip_with PrimFloat.add (from1 binwave) (upto_last binwave) in
  match getitem binwave 0, getitem midpoints 0 with
  | Ok b0, Ok m0 =>
      let first := PrimFloat.sub b0 (PrimFloat.sub m0 b0) in
      match getitem_last binwave, getitem_last midpoints with
      | Ok bl, Ok ml =>
          let final := PrimFloat.add bl (PrimFloat.sub bl ml) in
          Ok (first :: midpoints ++ [final])
      | Raise e, _ | _, Raise e => Raise e
      end
  | Raise e, _ | _, Raise e => Raise e
  end.

(** [N.empty(shape)]: an array whose slots are not initialised; they are
    shown as zeros, and every one is assigned before it is read. *)
Definition empty (n : nat) : array := replicate n 0.
Definition empty_float (n : nat) : list float64 := replicate n (Finite 0).

End Shared.

(** ** [lib/observation.py] *)

Module observation.
Section Methods.

Context {Spectrum Bandpass : Type} {C : Collaborators Spectrum Bandpass}.

Abbreviation Py := (M Spectrum Bandpass).

Definition validate_overlap (force : option string) : Py unit :=
  match force with
  | None =>
      s <- getattr spectrum "spectrum" ;;
      b <- getattr bandpass "bandpass" ;;
      let stat := check_overlap s b in
      if String.eqb stat "full" then ret tt
      else if String.eqb stat "partial" then
        raise (ValueError "Spectrum and bandpass do not fully overlap. You may use force=[extrap|taper] to force this Observation anyway.")
      else if String.eqb stat "none" then
        raise (ValueError "Spectrum and bandpass are disjoint")
      else ret tt
  | Some force =>
      if String.eqb (lower force) "taper" then
        s <- getattr spectrum "spectrum" ;;
        match taper s with
        | Ok s' => modify (set_spectrum s')
        | Raise (AttributeError _) =>
            t <- lift (tabulate s) ;;
            s' <- lift (taper t) ;;
            modify (set_spectrum s')
        | Raise e => raise e
        end
      else if startswith (lower force) "extrap" then ret tt
      else raise (KeyError ("Illegal value force=" ++ force ++ "; legal values=('taper','extrap')"))
  end.

Definition initbinset (binset : option array) : Py unit :=
  match binset with
  | None =>
      b <- getattr bandpass "bandpass" ;;
      let msg := "(" ++ str b ++ ") does not have a defined binset in the wavecat table. The waveset of the spectrum will be used instead." in
      match bandWave b with
      | Ok v => modify (set_binwave v)
      | Raise (KeyError _) | Raise (AttributeError _) =>
          s <- getattr spectrum "spectrum" ;;
          modify (set_binwave (Some (spectrum_wave s))) >>
          print msg
      | Raise e => raise e
      end >>
      (fun w =>
         match binwave (self w) with
         | None =>
             (s <- getattr spectrum "spectrum" ;;
              modify (set_binwave (Some (spectrum_wave s))) >>
              print msg) w
         | Some _ => ret tt w
         end)
  | Some a => modify (set_binwave (Some a))
  end.

(** The body of the loop over the bins. *)
Definition sum_bin (avflux : array) (i : nat) : Py unit :=
  ind <- getattr _indices "_indices" ;;
  ind_last <- getattr _indices_last "_indices_last" ;;
  deltaw <- getattr _deltaw "_deltaw" ;;
  first <- lift (getitem ind i) ;;
  last <- lift (getitem ind_last i) ;;
  binflux <- getattr _binflux "_binflux" ;;
  binflux' <- lift (setitem binflux i
                (true_divide
                   (sum (multiply (slice avflux first last) (slice deltaw first last)))
                   (sum (slice deltaw first last)))) ;;
  modify (set_binflux binflux') >>
  intwave <- getattr _intwave "_intwave" ;;
  intwave' <- lift (setitem intwave i (sum (slice deltaw first last))) ;;
  modify (set_intwave intwave').

Fixpoint for_bins (idx : list nat) (body : nat -> Py unit) : Py unit :=
  match idx with
  | [] => ret tt
  | i :: rest => body i >> for_bins rest body
  end.

Definition initbinflux : Py unit :=
  binwave_ <- getattr binwave "binwave" ;;
  (* compute endpoints of each summation bin. *)
  endpoints <- lift (compute_endpoints binwave_) ;;
  (* merge the endpoints in with the natural waveset *)
  wave <- self_wave ;;
  spwave <- lift (spectrum.MergeWaveSets wave endpoints) ;;
  spwave <- lift (spectrum.MergeWaveSets spwave binwave_) ;;
  (* compute indices associated to each endpoint. *)
  let indices := searchsorted spwave endpoints in
  let diff := subtract_int (from1 indices) (upto_last indices) in
  modify (set_indices (upto_last indices)) >>
  ind <- getattr _indices "_indices" ;;
  modify (set_indices_last (add_int ind diff)) >>
  (* prepare integration variables. *)
  flux <- self_call spwave ;;
  let avflux := divide_by (add (from1 flux) (upto_last flux)) 2 in
  modify (set_deltaw (subtract (from1 spwave) (upto_last spwave))) >>
  (* sum over each bin. *)
  modify (set_binflux (empty_float (length binwave_))) >>
  modify (set_intwave (empty (length binwave_))) >>
  ind <- getattr _indices "_indices" ;;
  for_bins (seq 0 (length ind)) (sum_bin avflux).

Definition __init__ (spec : Spectrum) (band : Bandpass)
    (binset : option array) (force : option string) : Py unit :=
  modify (set_spectrum spec) >>
  modify (set_bandpass band) >>
  validate_overlap force >>
  s <- getattr spectrum "spectrum" ;;
  b <- getattr bandpass "bandpass" ;;
  CompositeSourceSpectrum__init__ s b >>
  initbinset binset >>
  initbinflux.

(** [Observation(spec, band, binset, force)]: the outcome of the
    constructor on a new instance, with what it printed. *)
Definition construct (spec : Spectrum) (band : Bandpass)
    (binset : option array) (force : option string)
  : result unit * World Spectrum Bandpass :=
  __init__ spec band binset force (mkWorld new_object []).

(** Methods that this class does not support; [other] is any object. *)
Definition __mul__ {A B : Type} (other : A) : Py B :=
  raise (NotImplementedError "Observations cannot be multiplied").
Definition __rmul__ {A B : Type} (other : A) : Py B :=
  raise (NotImplementedError "Observations cannot be multiplied").
Definition __add__ {A B : Type} (other : A) : Py B :=
  raise (NotImplementedError "Observations cannot be added").
Definition __radd__ {A B : Type} (other : A) : Py B :=
  raise (NotImplementedError "Observations cannot be added").
Definition redshift {A B : Type} (z : A) : Py B :=
  raise (NotImplementedError "Observations cannot be redshifted").

Definition pivot : Py pyfloat :=
  wave <- self_wave ;;
  fmul <- self_call wave ;;
  let countmulwave := multiply fmul wave in
  fdiv <- self_call wave ;;
  let countdivwave := divide fdiv wave in
  let num := spectrum.trapezoidIntegration wave countmulwave in
  let den := spectrum.trapezoidIntegration wave countdivwave in
  if Qeq_bool num 0 || Qeq_bool den 0 then ret (Rat 0)
  else lift (math_sqrt (num / den)).

End Methods.
End observation.

(** ** [lib/newobservation.py] *)

Module newobservation.
Section Methods.

Context {Spectrum Bandpass : Type} {C : Collaborators Spectrum Bandpass}.

Abbreviation Py := (M Spectrum Bandpass).

(** [binset == None] is read as the test for [None].  When [bandWave()]
    returns [None], [binwave] is [None] afterwards, which the instance
    holds as an attribute that is not set: [initbinflux] then fails on
    it, with the [AttributeError] of a missing attribute here and the
    [TypeError] of subscripting [None] in the code. *)
Definition initbinset (binset : option array) : Py unit :=
  match binset with
  | None =>
      b <- getattr bandpass "bandpass" ;;
      match bandWave b with
      | Ok v => modify (set_binwave v)
      | Raise (KeyError m) =>
          print (str b ++ " does not have a defined binset in the wavecat table. You must provide a binset.") >>
          raise (KeyError m)
      | Raise (AttributeError m) =>
          print (str b ++ " does not have a defined binset in the wavecat table. You must provide a binset.") >>
          raise (AttributeError m)
      | Raise e => raise e
      end
  | Some a => modify (set_binwave (Some a))
  end.

(** The body of the loop over the bins: the sum is not divided. *)
Definition sum_bin (avflux : array) (i : nat) : Py unit :=
  ind <- getattr _indices "_indices" ;;
  ind_last <- getattr _indices_last "_indices_last" ;;
  deltaw <- getattr _deltaw "_deltaw" ;;
  first <- lift (getitem ind i) ;;
  last <- lift (getitem ind_last i) ;;
  binflux <- getattr _binflux "_binflux" ;;
  binflux' <- lift (setitem binflux i
                (Finite (sum (multiply (slice avflux first last)
                                       (slice deltaw first last))))) ;;
  modify (set_binflux binflux').

Definition initbinflux : Py unit :=
  binwave_ <- getattr binwave "binwave" ;;
  (* compute endpoints of each summation bin. *)
  endpoints <- lift (compute_endpoints binwave_) ;;
  (* merge the endpoints in with the natural waveset of SPECTRUM only *)
  wave <- self_wave ;;
  spwave <- lift (spectrum.MergeWaveSets wave endpoints) ;;
  (* compute indices associated to each endpoint. *)
  let indices := searchsorted spwave endpoints in
  let diff := subtract_int (from1 indices) (upto_last indices) in
  modify (set_indices (upto_last indices)) >>
  ind <- getattr _indices "_indices" ;;
  modify (set_indices_last (add_int ind diff)) >>
  (* prepare integration variables. *)
  modify (set_deltaw (subtract (from1 spwave) (upto_last spwave))) >>
  flux <- self_call spwave ;;
  let avflux := divide_by (add (from1 flux) (upto_last flux)) 2 in
  (* sum over each bin. *)
  modify (set_binflux (empty_float (length binwave_))) >>
  ind <- getattr _indices "_indices" ;;
  observation.for_bins (seq 0 (length ind)) (sum_bin avflux).

Definition __init__ (spec : Spectrum) (band : Bandpass)
    (binset : option array) : Py unit :=
  CompositeSourceSpectrum__init__ spec band >>
  c1 <- getattr component1 "component1" ;;
  modify (set_spectrum c1) >>
  c2 <- getattr component2 "component2" ;;
  modify (set_bandpass c2) >>
  initbinset binset >>
  initbinflux.

Definition construct (spec : Spectrum) (band : Bandpass) (binset : option array)
  : result unit * World Spectrum Bandpass :=
  __init__ spec band binset (mkWorld new_object []).

Definition __mul__ {A B : Type} (other : A) : Py B :=
  raise (NotImplementedError "Observations cannot be multiplied").
Definition __rmul__ {A B : Type} (other : A) : Py B :=
  raise (NotImplementedError "Observations cannot be multiplied").
Definition __add__ {A B : Type} (other : A) : Py B :=
  raise (NotImplementedError "Observations cannot be added").
Definition __radd__ {A B : Type} (other : A) : Py B :=
  raise (NotImplementedError "Observations cannot be added").
Definition redshift {A B : Type} (z : A) : Py B :=
  raise (NotImplementedError "Observations cannot be redshifted").

End Methods.
End newobservation.

(** ** A concrete pair of collaborators

    A spectrum and a bandpass given by their tables: the flux is a
    function of the wavelength, the overlap status and the answers of the
    bandpass are stored. *)

Record TableSpectrum : Type := mkTableSpectrum {
  ts_wave : array;
  ts_flux : Q -> Q;
  ts_overlap : string;
  ts_has_taper : bool;
  ts_tapered : bool
}.

Record TableBandpass : Type := mkTableBandpass {
  tb_wave : array;
  tb_throughput : Q -> Q;
  tb_bandWave : result (option array);
  tb_name : string
}.

#[export] Instance table_collaborators : Collaborators TableSpectrum TableBandpass := {|
  check_overlap s _ := ts_overlap s;
  taper s :=
    if ts_has_taper s
    then Ok (mkTableSpectrum (ts_wave s) (ts_flux s) (ts_overlap s) true true)
    else Raise (AttributeError "taper");
  tabulate s :=
    Ok (mkTableSpectrum (ts_wave s) (ts_flux s) (ts_overlap s) true (ts_tapered s));
  spectrum_wave := ts_wave;
  bandWave := tb_bandWave;
  str := tb_name;
  composite_wave s b := union1d (ts_wave s) (tb_wave b);
  composite_call s b ws := (fun w => ts_flux s w * tb_throughput b w) <$> ws;
  composite_call_length s b ws := length_fmap _ ws
|}.

(** The flat spectrum and bandpass of the first scenario of the spec. *)
Definition flat_spectrum : TableSpectrum :=
  mkTableSpectrum [100; 200; 300; 400; 500] (fun _ => 2) "full" true false.

Definition flat_bandpass : TableBandpass :=
  mkTableBandpass [100; 200; 300; 400; 500] (fun _ => 1) (Ok None) "flat".

(** The disjoint pair of the third and fourth scenarios. *)
Definition blue_spectrum : TableSpectrum :=
  mkTableSpectrum [100; 200] (fun _ => 2) "none" true false.

Definition red_bandpass : TableBandpass :=
  mkTableBandpass [300; 400] (fun _ => 1) (Ok None) "red".

(** A spectrum without flux. *)
Definition dark_spectrum : TableSpectrum :=
  mkTableSpectrum [100; 200; 300; 400; 500] (fun _ => 0) "full" true false.



(** An instance on which [spectrum] and [bandpass] are set, as at the
    call of [validate_overlap] in [__init__]. *)
Definition started {Spectrum Bandpass : Type} (spec : Spectrum) (band : Bandpass)
  : World Spectrum Bandpass :=
  mkWorld (set_bandpass band (set_spectrum spec new_object)) [].

Close Scope string_scope.

(** Collaborators that answer as they are told: the overlap status, the
    outcomes of [taper], [tabulate] and [bandWave], and one waveset. *)
Definition scripted_collaborators (overlap : string)
    (tapered tabulated : result unit) (band_wave : result (option array))
    (wave : array) : Collaborators unit unit := {|
  check_overlap _ _ := overlap;
  taper _ := tapered;
  tabulate _ := tabulated;
  spectrum_wave _ := wave;
  bandWave _ := band_wave;
  str _ := "band"%string;
  composite_wave _ _ := wave;
  composite_call _ _ ws := (fun _ => 1) <$> ws;
  composite_call_length _ _ ws := length_fmap _ ws
|}.

(** An instance after [initbinset]: the components and the bin centers
    are set. *)
Definition binned {Spectrum Bandpass : Type} (spec : Spectrum) (band : Bandpass)
    (binset : array) : World Spectrum Bandpass :=
  mkWorld (set_binwave (Some binset) (set_components spec band new_object)) [].

(** The endpoints and the merged grid of the first scenario in raw-sum
    mode, computed by the code. *)
Definition scenario_endpoints : array :=
  Eval vm_compute in
    match compute_endpoints [150; 250; 350; 450] with
    | Ok e => e
    | Raise _ => []
    end.

Definition scenario_grid : array :=
  Eval vm_compute in
    match spectrum.MergeWaveSets
            (composite_wave flat_spectrum flat_bandpass) scenario_endpoints with
    | Ok g => g
    | Raise _ => []
    end.

(** Three float64 bin centers 2 apart from 2^53 on, where consecutive
    float64 values are 2 apart. *)
Definition close_centers : list float :=
  [9007199254740992; 9007199254740994; 9007199254740996]%float.

(** ** What the theorems are stated with *)

(** The midpoints of consecutive bin centers, as [compute_endpoints]
    computes them. *)
Definition midpoints_of (binwave : array) : array :=
  divide_by (add (from1 binwave) (upto_last binwave)) 2.

(** The advisory message of [initbinset] in [observation.py]. *)
Definition advisory {Spectrum Bandpass : Type} {C : Collaborators Spectrum Bandpass}
    (b : Bandpass) : string :=
  ("(" ++ str b ++ ") does not have a defined binset in the wavecat table. The waveset of the spectrum will be used instead.")%string.


(** An array is strictly increasing. *)
Definition increasing (a : array) : Prop :=
  forall i x y, a !! i = Some x -> a !! S i = Some y -> x < y.

(** An array of float64 is strictly increasing, by the comparison of
    float64. *)
Definition increasing_float64 (a : list float) : Prop :=
  forall i x y, a !! i = Some x -> a !! S i = Some y -> PrimFloat.ltb x y = true.

Fixpoint increasingb (a : array) : bool :=
  match a with
  | x :: ((y :: _) as r) => (if Qlt_le_dec x y then true else false) && increasingb r
  | _ => true
  end.

(** The sum of [g k] for [first <= k < last]. *)
Definition sum_range (g : nat -> Q) (first last : nat) : Q :=
  sum (g <$> seq first (last - first)).

(** The terms of the trapezoid rule on a grid [w] with values [f]:
    [(f[k]+f[k+1])/2 * (w[k+1]-w[k])], and the width [w[k+1]-w[k]]. *)
Definition trapezoid (w f : array) (k : nat) : Q :=
  (nth k f 0 + nth (S k) f 0) / 2 * (nth (S k) w 0 - nth k w 0).

Definition width (w : array) (k : nat) : Q :=
  nth (S k) w 0 - nth k w 0.


(** The position in the grid of bin edge [i], as [N.searchsorted] finds it. *)
Definition edge_index (spwave endpoints : array) (i : nat) : nat :=
  searchsorted1 spwave (nth i endpoints 0).

(** A value occurs in an array, as a number. *)
Definition occurs (x : Q) (a : array) : Prop :=
  exists y, y ∈ a /\ y == x.

(** The sum of the finite entries of a float64 array (for arrays that
    hold only finite entries). *)
Definition finite_value (x : float64) : Q :=
  match x with
  | Finite q => q
  | _ => 0
  end.

(** ** Slices *)

Lemma bound_of_nat (len n : nat) : bound len (Z.of_nat n) = Nat.min n len.
Proof.
  unfold bound. destruct (Z.ltb_spec (Z.of_nat n) 0); [lia|].
  now rewrite Nat2Z.id.
Qed.

Lemma slice_of_nat {A : Type} (a : list A) (f l : nat) :
  slice a (Z.of_nat f) (Z.of_nat l) = take (l - f) (drop f a).
Proof.
  unfold slice. rewrite !bound_of_nat.
  destruct (Nat.le_gt_cases f (length a)) as [Hf|Hf].
  - rewrite (Nat.min_l f) by lia.
    destruct (Nat.le_gt_cases l (length a)) as [Hl|Hl].
    + now rewrite Nat.min_l by lia.
    + rewrite Nat.min_r by lia.
      rewrite !take_ge; auto; rewrite length_drop; lia.
  - rewrite (Nat.min_r f) by lia.
    rewrite !drop_ge by lia. now rewrite !take_nil.
Qed.

Lemma from1_drop {A : Type} (a : list A) : from1 a = drop 1 a.
Proof.
  unfold from1. change 1%Z with (Z.of_nat 1). rewrite slice_of_nat.
  apply take_ge. rewrite length_drop. lia.
Qed.

Lemma upto_last_take {A : Type} (a : list A) : upto_last a = take (length a - 1) a.
Proof.
  unfold upto_last, slice, bound. simpl.
  rewrite Nat.sub_0_r. f_equal. lia.
Qed.

Lemma lookup_from1 {A : Type} (a : list A) (i : nat) : from1 a !! i = a !! S i.
Proof. rewrite from1_drop. now rewrite lookup_drop. Qed.

Lemma lookup_upto_last {A : Type} (a : list A) (i : nat) :
  (S i < length a)%nat -> upto_last a !! i = a !! i.
Proof. intros. rewrite upto_last_take. apply lookup_take_lt. lia. Qed.

Lemma length_from1 {A : Type} (a : list A) : length (from1 a) = (length a - 1)%nat.
Proof. rewrite from1_drop. apply length_drop. Qed.

Lemma length_upto_last {A : Type} (a : list A) :
  length (upto_last a) = (length a - 1)%nat.
Proof. rewrite upto_last_take, length_take. lia. Qed.

Lemma lookup_adjacent {A B : Type} (op : A -> A -> B) (a : list A) (i : nat) (x y : A) :
  a !! i = Some x -> a !! S i = Some y ->
  zip_with op (from1 a) (upto_last a) !! i = Some (op y x).
Proof.
  intros Hx Hy. apply lookup_zip_with_Some. exists y, x.
  split; [reflexivity|]. split.
  - now rewrite lookup_from1.
  - rewrite lookup_upto_last; [assumption|].
    apply lookup_lt_Some in Hy. lia.
Qed.

Lemma length_adjacent {A B : Type} (op : A -> A -> B) (a : list A) :
  length (zip_with op (from1 a) (upto_last a)) = (length a - 1)%nat.
Proof. rewrite length_zip_with, length_from1, length_upto_last. lia. Qed.

(** ** The endpoints of the bins *)

Lemma length_midpoints (bw : array) : length (midpoints_of bw) = (length bw - 1)%nat.
Proof.
  unfold midpoints_of, divide_by, add. now rewrite length_fmap, length_adjacent.
Qed.

Lemma lookup_midpoints (bw : array) (i : nat) (x y : Q) :
  bw !! i = Some x -> bw !! S i = Some y ->
  midpoints_of bw !! i = Some ((y + x) / 2).
Proof.
  intros Hx Hy. unfold midpoints_of, divide_by, add.
  rewrite list_lookup_fmap, (lookup_adjacent Qplus bw i x y Hx Hy). reflexivity.
Qed.

Lemma compute_endpoints_ok (bw : array) :
  (2 <= length bw)%nat ->
  exists b0 b1 bp bl,
    bw !! 0%nat = Some b0 /\ bw !! 1%nat = Some b1 /\
    bw !! (length bw - 2)%nat = Some bp /\ bw !! (length bw - 1)%nat = Some bl /\
    compute_endpoints bw =
      Ok ((b0 - ((b1 + b0) / 2 - b0)) :: midpoints_of bw ++ [bl + (bl - (bl + bp) / 2)]).
Proof.
  intros Hn.
  destruct (lookup_lt_is_Some_2 bw 0) as [b0 H0]; [lia|].
  destruct (lookup_lt_is_Some_2 bw 1) as [b1 H1]; [lia|].
  destruct (lookup_lt_is_Some_2 bw (length bw - 2)) as [bp Hp]; [lia|].
  destruct (lookup_lt_is_Some_2 bw (length bw - 1)) as [bl Hl]; [lia|].
  exists b0, b1, bp, bl. repeat (split; [assumption|]).
  unfold compute_endpoints. fold (midpoints_of bw).
  unfold getitem, getitem_last. rewrite H0.
  rewrite (lookup_midpoints bw 0 b0 b1 H0 H1).
  rewrite !last_lookup, length_midpoints.
  replace (Nat.pred (length bw)) with (length bw - 1)%nat by lia. rewrite Hl.
  replace (Nat.pred (length bw - 1)) with (length bw - 2)%nat by lia.
  rewrite (lookup_midpoints bw (length bw - 2) bp bl Hp).
  - reflexivity.
  - replace (S (length bw - 2)) with (length bw - 1)%nat by lia. assumption.
Qed.

Lemma half (x : Q) : x / 2 == x * (1 # 2).
Proof. field. Qed.

Lemma increasing_lt (a : array) :
  increasing a ->
  forall d i x y, a !! i = Some x -> a !! (i + S d)%nat = Some y -> x < y.
Proof.
  intros Hinc d. induction d as [|d IH]; intros i x y Hx Hy.
  - apply (Hinc i); [assumption|]. now rewrite Nat.add_1_r in Hy.
  - destruct (lookup_lt_is_Some_2 a (i + S d)) as [z Hz].
    { apply lookup_lt_Some in Hy. lia. }
    apply Qlt_trans with z; [now apply (IH i)|].
    apply (Hinc (i + S d)%nat); [assumption|].
    now replace (S (i + S d)) with (i + S (S d))%nat by lia.
Qed.

Lemma compute_endpoints_spec (binwave : array) :
  increasing binwave -> (2 <= length binwave)%nat ->
  exists endpoints,
    compute_endpoints binwave = Ok endpoints /\
    length endpoints = (length binwave + 1)%nat /\
    (forall i x y, (1 <= i <= length binwave - 1)%nat ->
       binwave !! (i - 1)%nat = Some x -> binwave !! i = Some y ->
       exists e, endpoints !! i = Some e /\ e == (x + y) / 2) /\
    (forall b0 m0, binwave !! 0%nat = Some b0 -> midpoints_of binwave !! 0%nat = Some m0 ->
       exists e, endpoints !! 0%nat = Some e /\ e == b0 - (m0 - b0)) /\
    (forall bl ml, binwave !! (length binwave - 1)%nat = Some bl ->
       midpoints_of binwave !! (length binwave - 2)%nat = Some ml ->
       exists e, endpoints !! length binwave = Some e /\ e == bl + (bl - ml)) /\
    (forall i b, binwave !! i = Some b ->
       exists lo hi, endpoints !! i = Some lo /\ endpoints !! S i = Some hi /\
                     lo < b /\ b < hi).
Proof.
  intros Hinc Hn.
  destruct (compute_endpoints_ok binwave Hn) as (b0 & b1 & bp & bl & H0 & H1 & Hp & Hl & He).
  eexists. split; [exact He|].
  assert (Hmid : forall i x y, binwave !! i = Some x -> binwave !! S i = Some y ->
            (((b0 - ((b1 + b0) / 2 - b0)) :: midpoints_of binwave
                ++ [bl + (bl - (bl + bp) / 2)]) : array) !! S i = Some ((y + x) / 2)).
  { intros i x y Hx Hy. simpl. rewrite lookup_app_l.
    - now apply lookup_midpoints.
    - rewrite length_midpoints. apply lookup_lt_Some in Hy. lia. }
  assert (Hfin : (((b0 - ((b1 + b0) / 2 - b0)) :: midpoints_of binwave
                ++ [bl + (bl - (bl + bp) / 2)]) : array) !! length binwave
                 = Some (bl + (bl - (bl + bp) / 2))).
  { destruct (length binwave) as [|n] eqn:En; [lia|]. simpl.
    rewrite lookup_app_r; rewrite length_midpoints, En; [|lia].
    now replace (n - (S n - 1))%nat with 0%nat by lia. }
  assert (Hpl : bp < bl).
  { apply (Hinc (length binwave - 2)%nat); [assumption|].
    now replace (S (length binwave - 2)) with (length binwave - 1)%nat by lia. }
  assert (H01 : b0 < b1) by now apply (Hinc 0%nat).
  split; [|split; [|split; [|split]]].
  - simpl. rewrite length_app, length_midpoints. simpl. lia.
  - intros i x y Hi Hx Hy. destruct i as [|i]; [lia|].
    replace (S i - 1)%nat with i in Hx by lia.
    rewrite (Hmid i x y Hx Hy). eexists. split; [reflexivity|].
    rewrite !half. lra.
  - intros c0 m0 Hc0 Hm0. rewrite H0 in Hc0. injection Hc0 as <-.
    rewrite (lookup_midpoints binwave 0 b0 b1 H0 H1) in Hm0. injection Hm0 as <-.
    eexists. split; [reflexivity|]. reflexivity.
  - intros cl ml Hcl Hml. rewrite Hl in Hcl. injection Hcl as <-.
    rewrite (lookup_midpoints binwave (length binwave - 2) bp bl Hp) in Hml.
    + injection Hml as <-. rewrite Hfin. eexists. split; [reflexivity|]. reflexivity.
    + now replace (S (length binwave - 2)) with (length binwave - 1)%nat by lia.
  - intros i b Hb.
    assert (Hi : (i < length binwave)%nat) by now apply lookup_lt_Some in Hb.
    destruct i as [|i].
    + rewrite H0 in Hb. injection Hb as <-.
      rewrite (Hmid 0%nat b0 b1 H0 H1). do 2 eexists.
      split; [reflexivity|]. split; [reflexivity|].
      rewrite !half. split; lra.
    + destruct (lookup_lt_is_Some_2 binwave i) as [a Ha]; [lia|].
      assert (Hab : a < b) by now apply (Hinc i).
      rewrite (Hmid i a b Ha Hb).
      destruct (decide (S (S i) = length binwave)) as [Hlast|Hnot].
      * rewrite Hlast, Hfin.
        replace (length binwave - 1)%nat with (S i) in Hl by lia.
        replace (length binwave - 2)%nat with i in Hp by lia.
        rewrite Hl in Hb. injection Hb as <-. rewrite Hp in Ha. injection Ha as <-.
        do 2 eexists. split; [reflexivity|]. split; [reflexivity|].
        rewrite !half. split; lra.
      * destruct (lookup_lt_is_Some_2 binwave (S (S i))) as [c Hc]; [lia|].
        assert (Hbc : b < c) by now apply (Hinc (S i)).
        rewrite (Hmid (S i) b c Hb Hc).
        do 2 eexists. split; [reflexivity|]. split; [reflexivity|].
        rewrite !half. split; lra.
Qed.

(** ** Strictly increasing arrays *)

Lemma increasing_nil : increasing [].
Proof. intros i x y H. now rewrite lookup_nil in H. Qed.

Lemma increasing_tail (x : Q) (a : array) : increasing (x :: a) -> increasing a.
Proof. intros H i u v Hu Hv. exact (H (S i) u v Hu Hv). Qed.

Lemma increasing_head (x : Q) (a : array) :
  increasing (x :: a) -> forall z, z ∈ a -> x < z.
Proof.
  intros H z Hz. apply list_elem_of_lookup in Hz as [i Hi].
  apply (increasing_lt _ H i 0%nat x z); [reflexivity|].
  now replace (0 + S i)%nat with (S i) by lia.
Qed.

Lemma increasing_cons (x : Q) (a : array) :
  (forall z, z ∈ a -> x < z) -> increasing a -> increasing (x :: a).
Proof.
  intros Hx Ha i u v Hu Hv. destruct i as [|i].
  - injection Hu as <-. apply Hx. apply list_elem_of_lookup. now exists 0%nat.
  - exact (Ha i u v Hu Hv).
Qed.

Lemma increasing_lookup_lt (a : array) (i j : nat) (x y : Q) :
  increasing a -> a !! i = Some x -> a !! j = Some y -> x < y -> (i < j)%nat.
Proof.
  intros Ha Hx Hy Hlt.
  destruct (Nat.lt_ge_cases i j) as [|Hge]; [assumption|exfalso].
  destruct (decide (i = j)) as [->|Hne].
  - rewrite Hx in Hy. injection Hy as <-. lra.
  - assert (y < x).
    { apply (increasing_lt a Ha (i - j - 1) j y x Hy).
      now replace (j + S (i - j - 1))%nat with i by lia. }
    lra.
Qed.

Lemma increasingb_correct (a : array) : increasingb a = true -> increasing a.
Proof.
  induction a as [|x [|y r] IH]; intros H.
  - apply increasing_nil.
  - intros [|i] u v Hu Hv; discriminate.
  - simpl in H. apply andb_prop in H as [Hxy Hr].
    destruct (Qlt_le_dec x y) as [Hlt|]; [|discriminate].
    intros [|i] u v Hu Hv.
    + injection Hu as <-. injection Hv as <-. assumption.
    + exact (IH Hr i u v Hu Hv).
Qed.

(** ** The sorted union *)

Lemma elem_of_insert1 (x z : Q) (a : array) :
  z ∈ insert1 x a -> z = x \/ z ∈ a.
Proof.
  induction a as [|y r IH]; simpl.
  - intros H. apply list_elem_of_singleton in H. now left.
  - destruct (x ?= y).
    + now right.
    + intros H. apply elem_of_cons in H as [->|H]; [now left|now right].
    + intros H. apply elem_of_cons in H as [->|H].
      * right. apply elem_of_cons. now left.
      * destruct (IH H) as [->|Hr]; [now left|].
        right. apply elem_of_cons. now right.
Qed.

Lemma insert1_increasing (x : Q) (a : array) :
  increasing a -> increasing (insert1 x a).
Proof.
  induction a as [|y r IH]; intros Ha; simpl.
  - apply increasing_cons; [|apply increasing_nil].
    intros z Hz. now apply elem_of_nil in Hz.
  - destruct (x ?= y) eqn:Hc.
    + assumption.
    + apply increasing_cons; [|assumption].
      intros z Hz. apply Qlt_alt in Hc.
      apply elem_of_cons in Hz as [->|Hz]; [assumption|].
      apply Qlt_trans with y; [assumption|]. now apply (increasing_head y r).
    + apply increasing_cons.
      * intros z Hz. apply Qgt_alt in Hc.
        destruct (elem_of_insert1 _ _ _ Hz) as [->|Hr]; [assumption|].
        now apply (increasing_head y r).
      * apply IH. now apply increasing_tail with y.
Qed.

Lemma occurs_cons (v x : Q) (a : array) :
  occurs v (x :: a) <-> x == v \/ occurs v a.
Proof.
  unfold occurs. split.
  - intros (y & Hy & Hv). apply elem_of_cons in Hy as [->|Hy]; [now left|].
    right. now exists y.
  - intros [Hx|(y & Hy & Hv)].
    + exists x. split; [apply elem_of_cons; now left|assumption].
    + exists y. split; [apply elem_of_cons; now right|assumption].
Qed.

Lemma occurs_app (v : Q) (a b : array) :
  occurs v (a ++ b) <-> occurs v a \/ occurs v b.
Proof.
  unfold occurs. split.
  - intros (y & Hy & Hv). apply elem_of_app in Hy as [Hy|Hy]; [left|right]; now exists y.
  - intros [(y & Hy & Hv)|(y & Hy & Hv)]; exists y; (split; [|assumption]);
      apply elem_of_app; [now left|now right].
Qed.

Lemma occurs_insert1 (v x : Q) (a : array) :
  occurs v (insert1 x a) <-> x == v \/ occurs v a.
Proof.
  induction a as [|y r IH]; simpl.
  - rewrite occurs_cons. reflexivity.
  - destruct (x ?= y) eqn:Hc.
    + apply Qeq_alt in Hc. rewrite occurs_cons. split; [now right|].
      intros [Hx|H]; [|assumption]. left. now rewrite <- Hc.
    + rewrite occurs_cons. reflexivity.
    + rewrite occurs_cons, IH, occurs_cons. tauto.
Qed.

Lemma union1d_increasing (a b : array) : increasing (union1d a b).
Proof.
  unfold union1d. induction (a ++ b) as [|x r IH]; simpl.
  - apply increasing_nil.
  - now apply insert1_increasing.
Qed.

Lemma occurs_union1d (v : Q) (a b : array) :
  occurs v (union1d a b) <-> occurs v a \/ occurs v b.
Proof.
  rewrite <- occurs_app. unfold union1d.
  induction (a ++ b) as [|x r IH]; simpl.
  - reflexivity.
  - now rewrite occurs_insert1, occurs_cons, IH.
Qed.

Lemma MergeWaveSets_ok (a b : array) :
  a <> [] -> b <> [] -> spectrum.MergeWaveSets a b = Ok (union1d a b).
Proof. destruct a, b; simpl; congruence. Qed.

Lemma union1d_nonempty (a b : array) : b <> [] -> union1d a b <> [].
Proof.
  intros Hb Hu. destruct b as [|x b]; [congruence|].
  assert (H : occurs x (union1d a (x :: b))).
  { apply occurs_union1d. right. apply occurs_cons. now left. }
  rewrite Hu in H. destruct H as (y & Hy & _). now apply elem_of_nil in Hy.
Qed.

(** ** Searching a sorted array *)

Lemma searchsorted1_found (a : array) (k : nat) (x v : Q) :
  increasing a -> a !! k = Some x -> x == v -> searchsorted1 a v = k.
Proof.
  revert k. induction a as [|y r IH]; intros k Ha Hk Hv.
  - now rewrite lookup_nil in Hk.
  - simpl. destruct k as [|k].
    + injection Hk as ->. destruct (Qlt_le_dec x v); [lra|reflexivity].
    + assert (y < x).
      { apply (increasing_head y r Ha). apply list_elem_of_lookup. now exists k. }
      destruct (Qlt_le_dec y v); [|lra].
      f_equal. apply IH; [now apply increasing_tail with y|assumption|assumption].
Qed.

Lemma searchsorted1_occurs (a : array) (v : Q) :
  increasing a -> occurs v a ->
  exists x, a !! searchsorted1 a v = Some x /\ x == v.
Proof.
  intros Ha (y & Hy & Hv). apply list_elem_of_lookup in Hy as [k Hk].
  exists y. now rewrite (searchsorted1_found a k y v Ha Hk Hv).
Qed.

(** ** Sums *)

Lemma sum_app (a b : array) : sum (a ++ b) == sum a + sum b.
Proof.
  unfold sum. induction a as [|x a IH]; simpl.
  - lra.
  - rewrite IH. lra.
Qed.

Lemma sum_fmap_ext (g h : nat -> Q) (idx : list nat) :
  (forall k, k ∈ idx -> g k == h k) -> sum (g <$> idx) == sum (h <$> idx).
Proof.
  unfold sum. induction idx as [|i idx IH]; intros H; simpl.
  - reflexivity.
  - rewrite (H i) by (apply elem_of_cons; now left).
    rewrite IH; [reflexivity|].
    intros k Hk. apply H. apply elem_of_cons. now right.
Qed.

Lemma sum_range_ext (g h : nat -> Q) (first last : nat) :
  (forall k, (first <= k < last)%nat -> g k == h k) ->
  sum_range g first last == sum_range h first last.
Proof.
  intros H. apply sum_fmap_ext. intros k Hk.
  apply elem_of_seq in Hk. apply H. lia.
Qed.

Lemma sum_range_empty (g : nat -> Q) (first last : nat) :
  (last <= first)%nat -> sum_range g first last = 0.
Proof.
  intros H. unfold sum_range. now replace (last - first)%nat with 0%nat by lia.
Qed.

Lemma sum_range_split (g : nat -> Q) (first mid last : nat) :
  (first <= mid <= last)%nat ->
  sum_range g first last == sum_range g first mid + sum_range g mid last.
Proof.
  intros H. unfold sum_range.
  replace (last - first)%nat with ((mid - first) + (last - mid))%nat by lia.
  rewrite seq_app, fmap_app, sum_app.
  now replace (first + (mid - first))%nat with mid by lia.
Qed.

Lemma sum_range_pos (g : nat -> Q) (first last : nat) :
  (first < last)%nat -> (forall k, (first <= k < last)%nat -> 0 < g k) ->
  0 < sum_range g first last.
Proof.
  intros Hlt Hg.
  assert (Hnn : forall n, (first + n <= last)%nat -> 0 <= sum_range g first (first + n)).
  { induction n as [|n IH]; intros Hn.
    - rewrite sum_range_empty by lia. lra.
    - rewrite (sum_range_split g first (first + n) (first + S n)) by lia.
      assert (0 < sum_range g (first + n) (first + S n)).
      { unfold sum_range. replace (first + S n - (first + n))%nat with 1%nat by lia.
        unfold sum. simpl. specialize (Hg (first + n)%nat ltac:(lia)). lra. }
      specialize (IH ltac:(lia)). lra. }
  rewrite (sum_range_split g first (last - 1) last) by lia.
  assert (0 < sum_range g (last - 1) last).
  { unfold sum_range. replace (last - (last - 1))%nat with 1%nat by lia.
    unfold sum. simpl. specialize (Hg (last - 1)%nat ltac:(lia)). lra. }
  specialize (Hnn (last - 1 - first)%nat).
  replace (first + (last - 1 - first))%nat with (last - 1)%nat in Hnn by lia.
  specialize (Hnn ltac:(lia)). lra.
Qed.

Lemma take_drop_nth {A : Type} (a : list A) (d : A) (first last : nat) :
  (last <= length a)%nat ->
  take (last - first) (drop first a) = (fun k => nth k a d) <$> seq first (last - first).
Proof.
  intros Hl. apply list_eq. intros i.
  rewrite list_lookup_fmap.
  destruct (decide (i < last - first)%nat) as [Hi|Hi].
  - rewrite lookup_take_lt by assumption. rewrite lookup_drop.
    rewrite lookup_seq_lt by assumption. simpl.
    destruct (lookup_lt_is_Some_2 a (first + i)) as [x Hx]; [lia|].
    rewrite Hx. f_equal. symmetry. now apply nth_lookup_Some.
  - rewrite lookup_take_ge by lia. rewrite lookup_seq_ge by lia. reflexivity.
Qed.

Lemma nth_adjacent {A B : Type} (op : A -> A -> B) (a : list A) (da : A) (db : B) (k : nat) :
  (S k < length a)%nat ->
  nth k (zip_with op (from1 a) (upto_last a)) db = op (nth (S k) a da) (nth k a da).
Proof.
  intros Hk.
  destruct (lookup_lt_is_Some_2 a k) as [x Hx]; [lia|].
  destruct (lookup_lt_is_Some_2 a (S k)) as [y Hy]; [lia|].
  rewrite (nth_lookup_Some _ _ _ _ (lookup_adjacent op a k x y Hx Hy)).
  now rewrite (nth_lookup_Some _ _ da _ Hx), (nth_lookup_Some _ _ da _ Hy).
Qed.

(** The width and the trapezoid sum of a bin, as the code computes them
    on slices, are the sums over the index range. *)
Lemma bin_width_sum (w : array) (first last : nat) :
  (S last <= length w)%nat ->
  sum (slice (subtract (from1 w) (upto_last w)) (Z.of_nat first) (Z.of_nat last))
  == sum_range (width w) first last.
Proof.
  intros Hl. rewrite slice_of_nat.
  rewrite (take_drop_nth _ 0) by (unfold subtract; rewrite length_adjacent; lia).
  apply sum_fmap_ext. intros k Hk. apply elem_of_seq in Hk.
  unfold subtract, width. rewrite (nth_adjacent Qminus w 0 0) by lia. reflexivity.
Qed.

Lemma bin_flux_sum (w f : array) (first last : nat) :
  length f = length w -> (S last <= length w)%nat ->
  sum (multiply
         (slice (divide_by (add (from1 f) (upto_last f)) 2) (Z.of_nat first) (Z.of_nat last))
         (slice (subtract (from1 w) (upto_last w)) (Z.of_nat first) (Z.of_nat last)))
  == sum_range (trapezoid w f) first last.
Proof.
  intros Hlen Hl. rewrite !slice_of_nat.
  rewrite (take_drop_nth (divide_by _ _) 0)
    by (unfold divide_by, add; rewrite length_fmap, length_adjacent; lia).
  rewrite (take_drop_nth (subtract _ _) 0)
    by (unfold subtract; rewrite length_adjacent; lia).
  unfold multiply. rewrite zip_with_fmap_l, zip_with_fmap_r, zip_with_diag.
  apply sum_fmap_ext. intros k Hk. apply elem_of_seq in Hk.
  unfold subtract, divide_by, add, trapezoid.
  rewrite (nth_adjacent Qminus w 0 0) by lia.
  assert (Hav : nth k ((fun x => x / 2) <$> zip_with Qplus (from1 f) (upto_last f)) 0
                = (nth (S k) f 0 + nth k f 0) / 2).
  { destruct (lookup_lt_is_Some_2 f k) as [x Hx]; [lia|].
    destruct (lookup_lt_is_Some_2 f (S k)) as [y Hy]; [lia|].
    apply nth_lookup_Some. rewrite list_lookup_fmap.
    rewrite (lookup_adjacent Qplus f k x y Hx Hy). simpl.
    now rewrite (nth_lookup_Some _ _ 0 _ Hx), (nth_lookup_Some _ _ 0 _ Hy). }
  rewrite Hav. rewrite !half. ring.
Qed.

(** ** The loop over the bins *)

Section Loops.

Context {Spectrum Bandpass : Type} {C : Collaborators Spectrum Bandpass}.

Lemma sum_bin_step (av : array) (i : nat) sp bp c1 c2 bw
      (ind indl : list Z) (dw : array) (bf : list float64) (iw : array)
      (out : list string) (first last : Z) :
  ind !! i = Some first -> indl !! i = Some last ->
  (i < length bf)%nat -> (i < length iw)%nat ->
  observation.sum_bin av i
    (mkWorld (mkObservation sp bp c1 c2 bw (Some ind) (Some indl) (Some dw)
                            (Some bf) (Some iw)) out)
  = (Ok tt,
     mkWorld (mkObservation (Spectrum:=Spectrum) (Bandpass:=Bandpass)
                sp bp c1 c2 bw (Some ind) (Some indl) (Some dw)
                (Some (<[i := true_divide
                                (sum (multiply (slice av first last) (slice dw first last)))
                                (sum (slice dw first last))]> bf))
                (Some (<[i := sum (slice dw first last)]> iw))) out).
Proof.
  intros Hf Hl Hbf Hiw.
  unfold observation.sum_bin, bind, getattr, lift, modify, getitem, setitem. simpl.
  rewrite Hf, Hl. simpl.
  destruct (decide (i < length bf)%nat); [|contradiction]. simpl.
  destruct (decide (i < length iw)%nat); [|contradiction]. reflexivity.
Qed.

Lemma for_bins_sum_bin (av : array) sp bp c1 c2 bw
      (ind indl : list Z) (dw : array) (out : list string) (m : nat) :
  forall (k : nat) (bf : list float64) (iw : array),
    (k + m <= length ind)%nat -> (k + m <= length indl)%nat ->
    (k + m <= length bf)%nat -> (k + m <= length iw)%nat ->
    exists bf' iw',
      observation.for_bins (seq k m) (observation.sum_bin av)
        (mkWorld (mkObservation sp bp c1 c2 bw (Some ind) (Some indl) (Some dw)
                                (Some bf) (Some iw)) out)
      = (Ok tt,
         mkWorld (mkObservation (Spectrum:=Spectrum) (Bandpass:=Bandpass)
                    sp bp c1 c2 bw (Some ind) (Some indl) (Some dw)
                    (Some bf') (Some iw')) out) /\
      length bf' = length bf /\ length iw' = length iw /\
      (forall i, (k <= i < k + m)%nat ->
         exists first last,
           ind !! i = Some first /\ indl !! i = Some last /\
           bf' !! i = Some (true_divide
                              (sum (multiply (slice av first last) (slice dw first last)))
                              (sum (slice dw first last))) /\
           iw' !! i = Some (sum (slice dw first last))) /\
      (forall i, (i < k)%nat -> bf' !! i = bf !! i /\ iw' !! i = iw !! i).
Proof.
  induction m as [|m IH]; intros k bf iw Hind Hindl Hbf Hiw.
  - exists bf, iw. simpl. unfold ret.
    split; [reflexivity|]. split; [reflexivity|]. split; [reflexivity|].
    split; [intros i Hi; exfalso; lia|]. intros i Hi. split; reflexivity.
  - destruct (lookup_lt_is_Some_2 ind k) as [first Hf]; [lia|].
    destruct (lookup_lt_is_Some_2 indl k) as [last Hl]; [lia|].
    simpl. unfold bind at 1.
    rewrite (sum_bin_step av k sp bp c1 c2 bw ind indl dw bf iw out first last Hf Hl)
      by lia.
    set (bf1 := <[k := _]> bf). set (iw1 := <[k := _]> iw).
    destruct (IH (S k) bf1 iw1) as (bf' & iw' & Hrun & Hlbf & Hliw & Hin & Hout);
      [lia | lia | subst bf1; rewrite length_insert; lia
       | subst iw1; rewrite length_insert; lia |]; clear IH.
    subst bf1 iw1.
    exists bf', iw'. split; [exact Hrun|].
    rewrite length_insert in Hlbf. rewrite length_insert in Hliw.
    split; [assumption|]. split; [assumption|]. split.
    + intros i Hi. destruct (decide (i = k)) as [->|Hne].
      * exists first, last. split; [assumption|]. split; [assumption|].
        destruct (Hout k ltac:(lia)) as [Hb Hw]. rewrite Hb, Hw.
        rewrite !list_lookup_insert_eq by lia. split; reflexivity.
      * apply Hin. lia.
    + intros i Hi. destruct (Hout i ltac:(lia)) as [Hb Hw]. rewrite Hb, Hw.
      rewrite !list_lookup_insert_ne by lia. split; reflexivity.
Qed.

End Loops.

(** ** The indices of the bins *)

Lemma lookup_searchsorted (a e : array) (i : nat) (v : Q) :
  e !! i = Some v -> searchsorted a e !! i = Some (Z.of_nat (searchsorted1 a v)).
Proof. intros H. unfold searchsorted. now rewrite list_lookup_fmap, H. Qed.

Lemma length_searchsorted (a e : array) : length (searchsorted a e) = length e.
Proof. unfold searchsorted. apply length_fmap. Qed.

Lemma lookup_indices_last (ind : list Z) (i : nat) (a b : Z) :
  ind !! i = Some a -> ind !! S i = Some b ->
  add_int (upto_last ind) (subtract_int (from1 ind) (upto_last ind)) !! i = Some b.
Proof.
  intros Ha Hb. unfold add_int, subtract_int.
  apply lookup_zip_with_Some. exists a, (b - a)%Z.
  split; [lia|]. split.
  - rewrite lookup_upto_last; [assumption|]. apply lookup_lt_Some in Hb. lia.
  - now apply lookup_adjacent.
Qed.

Lemma length_indices_last (ind : list Z) :
  length (add_int (upto_last ind) (subtract_int (from1 ind) (upto_last ind)))
  = (length ind - 1)%nat.
Proof.
  unfold add_int, subtract_int.
  rewrite length_zip_with, length_adjacent, length_upto_last. lia.
Qed.

Section Runs.

Context {Spectrum Bandpass : Type} {C : Collaborators Spectrum Bandpass}.

(** [initbinflux] of [observation.py] on an instance whose bin centers
    have endpoints and whose grids merge: the attributes it leaves. *)
Lemma initbinflux_run sp bp (c1 : Spectrum) (c2 : Bandpass) (bw : array)
      i0 il0 dw0 bf0 iw0 (out : list string) (e g spw : array) :
  compute_endpoints bw = Ok e -> length e = (length bw + 1)%nat ->
  spectrum.MergeWaveSets (composite_wave c1 c2) e = Ok g ->
  spectrum.MergeWaveSets g bw = Ok spw ->
  let ind := upto_last (searchsorted spw e) in
  let indl := add_int ind (subtract_int (from1 (searchsorted spw e))
                                        (upto_last (searchsorted spw e))) in
  let dw := subtract (from1 spw) (upto_last spw) in
  let flux := composite_call c1 c2 spw in
  let av := divide_by (add (from1 flux) (upto_last flux)) 2 in
  exists bf iw,
    observation.initbinflux
      (mkWorld (mkObservation sp bp (Some c1) (Some c2) (Some bw) i0 il0 dw0 bf0 iw0) out)
    = (Ok tt,
       mkWorld (mkObservation sp bp (Some c1) (Some c2) (Some bw)
                  (Some ind) (Some indl) (Some dw) (Some bf) (Some iw)) out) /\
    length bf = length bw /\ length iw = length bw /\
    forall i, (i < length bw)%nat ->
      exists first last,
        ind !! i = Some first /\ indl !! i = Some last /\
        bf !! i = Some (true_divide
                          (sum (multiply (slice av first last) (slice dw first last)))
                          (sum (slice dw first last))) /\
        iw !! i = Some (sum (slice dw first last)).
Proof.
  intros He Hlen Hg Hs ind indl dw flux av.
  assert (Hli : length ind = length bw).
  { subst ind. rewrite length_upto_last, length_searchsorted. lia. }
  assert (Hlil : length indl = length bw).
  { subst indl ind. rewrite length_indices_last, length_searchsorted. lia. }
  destruct (for_bins_sum_bin av sp bp (Some c1) (Some c2) (Some bw) ind indl dw out
              (length ind) 0 (empty_float (length bw)) (empty (length bw)))
    as (bf & iw & Hrun & Hlbf & Hliw & Hin & _).
  1, 2: lia.
  1, 2: unfold empty_float, empty; rewrite length_replicate; lia.
  exists bf, iw.
  unfold empty_float in Hlbf. unfold empty in Hliw.
  rewrite length_replicate in Hlbf. rewrite length_replicate in Hliw.
  split; [|split; [assumption|split; [assumption|]]].
  - unfold observation.initbinflux, bind, getattr, lift, self_wave, self_call,
      modify, ret. simpl.
    rewrite He. simpl. rewrite Hg, Hs. simpl. exact Hrun.
  - intros i Hi. apply Hin. lia.
Qed.

End Runs.

Section NewRuns.

Context {Spectrum Bandpass : Type} {C : Collaborators Spectrum Bandpass}.

Lemma new_sum_bin_step (av : array) (i : nat) sp bp c1 c2 bw
      (ind indl : list Z) (dw : array) (bf : list float64) iw
      (out : list string) (first last : Z) :
  ind !! i = Some first -> indl !! i = Some last -> (i < length bf)%nat ->
  newobservation.sum_bin av i
    (mkWorld (mkObservation sp bp c1 c2 bw (Some ind) (Some indl) (Some dw)
                            (Some bf) iw) out)
  = (Ok tt,
     mkWorld (mkObservation (Spectrum:=Spectrum) (Bandpass:=Bandpass)
                sp bp c1 c2 bw (Some ind) (Some indl) (Some dw)
                (Some (<[i := Finite (sum (multiply (slice av first last)
                                                    (slice dw first last)))]> bf))
                iw) out).
Proof.
  intros Hf Hl Hbf.
  unfold newobservation.sum_bin, bind, getattr, lift, modify, getitem, setitem. simpl.
  rewrite Hf, Hl. simpl.
  destruct (decide (i < length bf)%nat); [|contradiction]. reflexivity.
Qed.

Lemma new_for_bins_sum_bin (av : array) sp bp c1 c2 bw
      (ind indl : list Z) (dw : array) iw (out : list string) (m : nat) :
  forall (k : nat) (bf : list float64),
    (k + m <= length ind)%nat -> (k + m <= length indl)%nat ->
    (k + m <= length bf)%nat ->
    exists bf',
      observation.for_bins (seq k m) (newobservation.sum_bin av)
        (mkWorld (mkObservation sp bp c1 c2 bw (Some ind) (Some indl) (Some dw)
                                (Some bf) iw) out)
      = (Ok tt,
         mkWorld (mkObservation (Spectrum:=Spectrum) (Bandpass:=Bandpass)
                    sp bp c1 c2 bw (Some ind) (Some indl) (Some dw)
                    (Some bf') iw) out) /\
      length bf' = length bf /\
      (forall i, (k <= i < k + m)%nat ->
         exists first last,
           ind !! i = Some first /\ indl !! i = Some last /\
           bf' !! i = Some (Finite (sum (multiply (slice av first last)
                                                  (slice dw first last))))) /\
      (forall i, (i < k)%nat -> bf' !! i = bf !! i).
Proof.
  induction m as [|m IH]; intros k bf Hind Hindl Hbf.
  - exists bf. simpl. unfold ret.
    split; [reflexivity|]. split; [reflexivity|].
    split; [intros i Hi; exfalso; lia|]. reflexivity.
  - destruct (lookup_lt_is_Some_2 ind k) as [first Hf]; [lia|].
    destruct (lookup_lt_is_Some_2 indl k) as [last Hl]; [lia|].
    simpl. unfold bind at 1.
    rewrite (new_sum_bin_step av k sp bp c1 c2 bw ind indl dw bf iw out first last Hf Hl)
      by lia.
    set (bf1 := <[k := _]> bf).
    destruct (IH (S k) bf1) as (bf' & Hrun & Hlbf & Hin & Hout);
      [lia | lia | subst bf1; rewrite length_insert; lia |]; clear IH.
    subst bf1. exists bf'. split; [exact Hrun|].
    rewrite length_insert in Hlbf. split; [assumption|]. split.
    + intros i Hi. destruct (decide (i = k)) as [->|Hne].
      * exists first, last. split; [assumption|]. split; [assumption|].
        rewrite (Hout k) by lia. now rewrite list_lookup_insert_eq by lia.
      * apply Hin. lia.
    + intros i Hi. rewrite (Hout i) by lia. now rewrite list_lookup_insert_ne by lia.
Qed.

(** [initbinflux] of [newobservation.py]: the attributes it leaves. *)
Lemma new_initbinflux_run sp bp (c1 : Spectrum) (c2 : Bandpass) (bw : array)
      i0 il0 dw0 bf0 iw0 (out : list string) (e spw : array) :
  compute_endpoints bw = Ok e -> length e = (length bw + 1)%nat ->
  spectrum.MergeWaveSets (composite_wave c1 c2) e = Ok spw ->
  let ind := upto_last (searchsorted spw e) in
  let indl := add_int ind (subtract_int (from1 (searchsorted spw e))
                                        (upto_last (searchsorted spw e))) in
  let dw := subtract (from1 spw) (upto_last spw) in
  let flux := composite_call c1 c2 spw in
  let av := divide_by (add (from1 flux) (upto_last flux)) 2 in
  exists bf,
    newobservation.initbinflux
      (mkWorld (mkObservation sp bp (Some c1) (Some c2) (Some bw) i0 il0 dw0 bf0 iw0) out)
    = (Ok tt,
       mkWorld (mkObservation sp bp (Some c1) (Some c2) (Some bw)
                  (Some ind) (Some indl) (Some dw) (Some bf) iw0) out) /\
    length bf = length bw /\
    forall i, (i < length bw)%nat ->
      exists first last,
        ind !! i = Some first /\ indl !! i = Some last /\
        bf !! i = Some (Finite (sum (multiply (slice av first last)
                                              (slice dw first last)))).
Proof.
  intros He Hlen Hs ind indl dw flux av.
  assert (Hli : length ind = length bw).
  { subst ind. rewrite length_upto_last, length_searchsorted. lia. }
  assert (Hlil : length indl = length bw).
  { subst indl ind. rewrite length_indices_last, length_searchsorted. lia. }
  destruct (new_for_bins_sum_bin av sp bp (Some c1) (Some c2) (Some bw) ind indl dw iw0
              out (length ind) 0 (empty_float (length bw)))
    as (bf & Hrun & Hlbf & Hin & _).
  1, 2: lia.
  1: unfold empty_float; rewrite length_replicate; lia.
  exists bf. unfold empty_float in Hlbf. rewrite length_replicate in Hlbf.
  split; [|split; [assumption|]].
  - unfold newobservation.initbinflux, bind, getattr, lift, self_wave, self_call,
      modify, ret. simpl.
    rewrite He. simpl. rewrite Hs. simpl. exact Hrun.
  - intros i Hi. apply Hin. lia.
Qed.

End NewRuns.

(** ** Sums over consecutive ranges and over a part of the grid *)

Lemma compute_endpoints_length (bw e : array) :
  compute_endpoints bw = Ok e ->
  (2 <= length bw)%nat /\ length e = (length bw + 1)%nat.
Proof.
  unfold compute_endpoints. fold (midpoints_of bw). unfold getitem, getitem_last.
  destruct (bw !! 0%nat) eqn:H0; [|discriminate].
  destruct (midpoints_of bw !! 0%nat) eqn:Hm; [|discriminate].
  destruct (last bw); [|discriminate].
  destruct (last (midpoints_of bw)); [|discriminate].
  intros H. injection H as <-.
  apply lookup_lt_Some in Hm. rewrite length_midpoints in Hm.
  split; [lia|]. simpl. rewrite length_app, length_midpoints. simpl. lia.
Qed.

Lemma sum_range_telescope (g : nat -> Q) (F : nat -> nat) (n : nat) :
  (forall i, (i < n)%nat -> (F i <= F (S i))%nat) ->
  sum ((fun i => sum_range g (F i) (F (S i))) <$> seq 0 n) == sum_range g (F 0%nat) (F n).
Proof.
  induction n as [|n IH]; intros HF.
  - simpl. rewrite sum_range_empty by lia. reflexivity.
  - assert (Hmono : forall i, (i <= n)%nat -> (F 0%nat <= F i)%nat).
    { induction i as [|i IHi]; intros Hi; [lia|].
      specialize (HF i ltac:(lia)). specialize (IHi ltac:(lia)). lia. }
    rewrite seq_S, fmap_app, sum_app. simpl.
    rewrite IH by (intros i Hi; apply HF; lia).
    rewrite (sum_range_split g (F 0%nat) (F n) (F (S n))).
    + unfold sum. simpl. lra.
    + split; [apply Hmono; lia|apply HF; lia].
Qed.

Lemma sum_range_shift (g : nat -> Q) (first m : nat) :
  sum_range (fun k => g (first + k)%nat) 0 m = sum_range g first (first + m).
Proof.
  unfold sum_range. rewrite Nat.sub_0_r.
  replace (first + m - first)%nat with m by lia.
  replace (seq first m) with (Nat.add first <$> seq 0 m)
    by (rewrite fmap_add_seq; f_equal; lia).
  now rewrite <- list_fmap_compose.
Qed.

Lemma slice_all {A : Type} (a : list A) (n : nat) :
  (length a <= n)%nat -> slice a 0 (Z.of_nat n) = a.
Proof.
  intros H. change 0%Z with (Z.of_nat 0). rewrite slice_of_nat.
  rewrite drop_0. apply take_ge. lia.
Qed.

Lemma trapezoidIntegration_sum_range (w f : array) :
  length f = length w ->
  spectrum.trapezoidIntegration w f == sum_range (trapezoid w f) 0 (length w - 1).
Proof.
  intros Hlen. unfold spectrum.trapezoidIntegration.
  destruct w as [|x w].
  - destruct f; [|discriminate]. reflexivity.
  - rewrite <- (bin_flux_sum (x :: w) f 0 (length (x :: w) - 1) Hlen) by (simpl; lia).
    rewrite !slice_all; [reflexivity| |].
    + unfold subtract. rewrite length_adjacent. lia.
    + unfold divide_by, add. rewrite length_fmap, length_adjacent. lia.
Qed.

Lemma nth_take_drop {A : Type} (a : list A) (d : A) (first n k : nat) :
  (k < n)%nat -> nth k (take n (drop first a)) d = nth (first + k) a d.
Proof.
  intros Hk. rewrite !nth_lookup. rewrite lookup_take_lt by assumption.
  now rewrite lookup_drop.
Qed.

(** The trapezoid rule on the part of the grid from index [first] to
    index [last], both included. *)
Lemma trapezoidIntegration_part (w f : array) (first last : nat) :
  length f = length w -> (first <= last)%nat -> (S last <= length w)%nat ->
  spectrum.trapezoidIntegration
    (slice w (Z.of_nat first) (Z.of_nat (S last)))
    (slice f (Z.of_nat first) (Z.of_nat (S last)))
  == sum_range (trapezoid w f) first last.
Proof.
  intros Hlen Hfl Hl. rewrite !slice_of_nat.
  rewrite trapezoidIntegration_sum_range
    by (rewrite !length_take, !length_drop; lia).
  rewrite length_take, length_drop.
  replace (Nat.min (S last - first) (length w - first) - 1)%nat with (last - first)%nat by lia.
  rewrite (sum_range_ext _ (fun k => trapezoid w f (first + k)) 0 (last - first)).
  - rewrite sum_range_shift. now replace (first + (last - first))%nat with last by lia.
  - intros k Hk. unfold trapezoid. rewrite !nth_take_drop by lia.
    now replace (first + S k)%nat with (S (first + k)) by lia.
Qed.

Lemma sum_by_lookup (a : array) :
  forall h : nat -> Q,
    (forall i, (i < length a)%nat -> exists x, a !! i = Some x /\ x == h i) ->
    sum a == sum (h <$> seq 0 (length a)).
Proof.
  induction a as [|x a IH]; intros h H.
  - reflexivity.
  - simpl length. rewrite <- cons_seq, <- fmap_S_seq, fmap_cons, <- list_fmap_compose.
    unfold sum in *. simpl.
    destruct (H 0%nat ltac:(simpl; lia)) as (x0 & Hx0 & Hh0). injection Hx0 as <-.
    rewrite Hh0. rewrite (IH (fun i => h (S i))); [reflexivity|].
    intros i Hi. apply (H (S i)). simpl. lia.
Qed.

Lemma MergeWaveSets_inv (a b s : array) :
  spectrum.MergeWaveSets a b = Ok s -> s = union1d a b.
Proof. destruct a, b; simpl; congruence. Qed.

(** ** Widths on an increasing grid *)

Lemma width_pos (w : array) (k : nat) :
  increasing w -> (S k < length w)%nat -> 0 < width w k.
Proof.
  intros Hw Hk. unfold width.
  destruct (lookup_lt_is_Some_2 w k) as [x Hx]; [lia|].
  destruct (lookup_lt_is_Some_2 w (S k)) as [y Hy]; [lia|].
  rewrite (nth_lookup_Some _ _ 0 _ Hx), (nth_lookup_Some _ _ 0 _ Hy).
  specialize (Hw k x y Hx Hy). lra.
Qed.

Lemma true_divide_finite (a b : Q) : ~ b == 0 -> true_divide a b = Finite (a / b).
Proof.
  intros Hb. unfold true_divide.
  destruct (Qeq_bool b 0) eqn:E; [|reflexivity].
  apply Qeq_bool_eq in E. contradiction.
Qed.

Lemma true_divide_zero_zero (a b : Q) : a == 0 -> b == 0 -> true_divide a b = NaN.
Proof.
  intros Ha Hb. unfold true_divide.
  apply Qeq_eq_bool in Ha, Hb. now rewrite Ha, Hb.
Qed.

(** ** The theorems *)

(** C3, in exact arithmetic.  For a strictly increasing array of bin
    centers of length n >= 2, the endpoint array has n+1 entries; entry i
    for 1 <= i <= n-1 is the midpoint of centers i-1 and i; entry 0
    mirrors the first half bin and entry n the last one; and, lines 93-97
    being evaluated without rounding, the centers lie strictly between
    consecutive endpoints. *)
Theorem endpoints_interleave_centers (binwave : array) :
  increasing binwave -> (2 <= length binwave)%nat ->
  exists endpoints,
    compute_endpoints binwave = Ok endpoints /\
    length endpoints = (length binwave + 1)%nat /\
    (forall i x y, (1 <= i <= length binwave - 1)%nat ->
       binwave !! (i - 1)%nat = Some x -> binwave !! i = Some y ->
       exists e, endpoints !! i = Some e /\ e == (x + y) / 2) /\
    (forall b0 m0, binwave !! 0%nat = Some b0 -> midpoints_of binwave !! 0%nat = Some m0 ->
       exists e, endpoints !! 0%nat = Some e /\ e == b0 - (m0 - b0)) /\
    (forall bl ml, binwave !! (length binwave - 1)%nat = Some bl ->
       midpoints_of binwave !! (length binwave - 2)%nat = Some ml ->
       exists e, endpoints !! length binwave = Some e /\ e == bl + (bl - ml)) /\
    (forall i b, binwave !! i = Some b ->
       exists lo hi, endpoints !! i = Some lo /\ endpoints !! S i = Some hi /\
                     lo < b /\ b < hi).
Proof. exact (compute_endpoints_spec binwave). Qed.

Lemma endpoints_interleave_centers_witness :
  exists endpoints,
    compute_endpoints [150; 250; 350; 450] = Ok endpoints /\
    length endpoints = 5%nat /\
    endpoints !! 0%nat = Some (150 - ((250 + 150) / 2 - 150)) /\
    endpoints !! 4%nat = Some (450 + (450 - (450 + 350) / 2)).
Proof.
  destruct (endpoints_interleave_centers [150; 250; 350; 450]) as (e & He & Hl & _).
  - apply increasingb_correct. reflexivity.
  - simpl. lia.
  - exists e. split; [exact He|]. split; [exact Hl|].
    vm_compute in He. injection He as <-. split; reflexivity.
Defined.

(** C3 as it was stated speaks of the endpoints that the code computes.
    It computes them in binary64, where a midpoint is rounded: for the
    strictly increasing centers 2^53, 2^53+2, 2^53+4 the endpoints are
    2^53, 2^53, 2^53+4, 2^53+4, so the first endpoint is the first center
    and not below it. *)
Lemma endpoints_collapse_in_float64 :
  increasing_float64 close_centers /\
  compute_endpoints_float64 close_centers
  = Ok [9007199254740992; 9007199254740992; 9007199254740996; 9007199254740996]%float /\
  ~ (forall binwave endpoints,
       increasing_float64 binwave -> (2 <= length binwave)%nat ->
       compute_endpoints_float64 binwave = Ok endpoints ->
       forall i b lo hi,
         binwave !! i = Some b -> endpoints !! i = Some lo -> endpoints !! S i = Some hi ->
         PrimFloat.ltb lo b = true /\ PrimFloat.ltb b hi = true).
Proof.
  assert (Hinc : increasing_float64 close_centers).
  { intros i x y Hx Hy.
    destruct i as [|[|[|i]]]; simpl in Hx, Hy; try discriminate;
      injection Hx as <-; injection Hy as <-; reflexivity. }
  assert (He : compute_endpoints_float64 close_centers
               = Ok [9007199254740992; 9007199254740992;
                     9007199254740996; 9007199254740996]%float)
    by (vm_compute; reflexivity).
  split; [exact Hinc|]. split; [exact He|].
  intros H.
  destruct (H close_centers _ Hinc ltac:(simpl; lia) He 0%nat _ _ _ eq_refl eq_refl eq_refl)
    as [Hlt _].
  vm_compute in Hlt. discriminate.
Qed.

(** C4. Raw-sum mode ([newobservation.py]).  When the index ranges of the
    bins tile the merged grid between the first and the last bin edge
    (the indices of consecutive edges never decrease), the sum of
    [_binflux] over all bins is the trapezoid-rule integral of the
    evaluated flux over the part of the grid from the first edge to the
    last edge. *)
Theorem raw_sum_bins_add_up
    {Spectrum Bandpass : Type} {C : Collaborators Spectrum Bandpass}
    (w : World Spectrum Bandpass) (bw endpoints spwave : array)
    (c1 : Spectrum) (c2 : Bandpass) :
  binwave (self w) = Some bw ->
  component1 (self w) = Some c1 -> component2 (self w) = Some c2 ->
  compute_endpoints bw = Ok endpoints ->
  spectrum.MergeWaveSets (composite_wave c1 c2) endpoints = Ok spwave ->
  (forall i a b, searchsorted spwave endpoints !! i = Some a ->
                 searchsorted spwave endpoints !! S i = Some b -> (a <= b)%Z) ->
  exists w' binflux e0 en x0 xn,
    newobservation.initbinflux w = (Ok tt, w') /\
    _binflux (self w') = Some binflux /\
    length binflux = length bw /\
    (forall x, x ∈ binflux -> exists q, x = Finite q) /\
    endpoints !! 0%nat = Some e0 /\ last endpoints = Some en /\
    let i0 := searchsorted1 spwave e0 in
    let iN := searchsorted1 spwave en in
    let flux := composite_call c1 c2 spwave in
    spwave !! i0 = Some x0 /\ x0 == e0 /\
    spwave !! iN = Some xn /\ xn == en /\
    sum (finite_value <$> binflux)
    == spectrum.trapezoidIntegration
         (slice spwave (Z.of_nat i0) (Z.of_nat (S iN)))
         (slice flux (Z.of_nat i0) (Z.of_nat (S iN))).
Proof.
  intros Hbw Hc1 Hc2 He Hs Htile.
  destruct w as [[sp bp oc1 oc2 obw j0 il0 dw0 bf0 iw0] out]. simpl in Hbw, Hc1, Hc2.
  subst obw oc1 oc2.
  destruct (compute_endpoints_length bw endpoints He) as [Hn Hlen].
  pose proof (MergeWaveSets_inv _ _ _ Hs) as Hspw.
  assert (Hsinc : increasing spwave) by (subst spwave; apply union1d_increasing).
  set (F := fun i => searchsorted1 spwave (nth i endpoints 0)).
  assert (HF : forall i, (i <= length bw)%nat ->
            endpoints !! i = Some (nth i endpoints 0) /\
            searchsorted spwave endpoints !! i = Some (Z.of_nat (F i)) /\
            exists x, spwave !! F i = Some x /\ x == nth i endpoints 0).
  { intros i Hi.
    destruct (lookup_lt_is_Some_2 endpoints i) as [v Hv]; [lia|].
    unfold F. rewrite (nth_lookup_Some _ _ 0 _ Hv). split; [assumption|].
    split; [now apply lookup_searchsorted|].
    apply searchsorted1_occurs; [assumption|].
    subst spwave. apply occurs_union1d. right. exists v. split; [|reflexivity].
    apply list_elem_of_lookup. now exists i. }
  assert (Hstep : forall i, (i < length bw)%nat -> (F i <= F (S i))%nat).
  { intros i Hi.
    destruct (HF i ltac:(lia)) as (_ & Ha & _). destruct (HF (S i) ltac:(lia)) as (_ & Hb & _).
    specialize (Htile i _ _ Ha Hb). lia. }
  assert (Hmono : forall i, (i <= length bw)%nat -> (F 0%nat <= F i)%nat).
  { induction i as [|i IHi]; intros Hi; [lia|].
    specialize (Hstep i ltac:(lia)). specialize (IHi ltac:(lia)). lia. }
  destruct (new_initbinflux_run sp bp c1 c2 bw j0 il0 dw0 bf0 iw0 out endpoints spwave
              He Hlen Hs) as (bf & Hrun & Hlbf & Hbins).
  set (flux := composite_call c1 c2 spwave) in *.
  assert (Hbin : forall i, (i < length bw)%nat ->
            exists q, bf !! i = Some (Finite q) /\
                      q == sum_range (trapezoid spwave flux) (F i) (F (S i))).
  { intros i Hi.
    destruct (HF i ltac:(lia)) as (_ & Ha & _).
    destruct (HF (S i) ltac:(lia)) as (_ & Hb & (y & Hy & _)).
    destruct (Hbins i Hi) as (f' & l' & Hf' & Hl' & Hbf).
    rewrite lookup_upto_last in Hf' by (rewrite length_searchsorted; lia).
    rewrite Ha in Hf'. injection Hf' as <-.
    rewrite (lookup_indices_last _ i _ _ Ha Hb) in Hl'. injection Hl' as <-.
    eexists. split; [exact Hbf|].
    apply bin_flux_sum; [apply composite_call_length|].
    apply lookup_lt_Some in Hy. lia. }
  destruct (HF 0%nat ltac:(lia)) as (H0 & _ & (x0 & Hx0 & Hx0e)).
  destruct (HF (length bw) ltac:(lia)) as (Hlast & _ & (xn & Hxn & Hxne)).
  eexists _, bf, (nth 0 endpoints 0), (nth (length bw) endpoints 0), x0, xn.
  split; [exact Hrun|]. simpl. split; [reflexivity|]. split; [exact Hlbf|].
  split.
  { intros x Hx. apply list_elem_of_lookup in Hx as [i Hi].
    destruct (Hbin i) as (q & Hq & _).
    - apply lookup_lt_Some in Hi. lia.
    - rewrite Hq in Hi. injection Hi as <-. now exists q. }
  split; [exact H0|]. split.
  { rewrite last_lookup. now replace (Nat.pred (length endpoints)) with (length bw) by lia. }
  fold (F 0%nat). fold (F (length bw)).
  split; [exact Hx0|]. split; [exact Hx0e|]. split; [exact Hxn|]. split; [exact Hxne|].
  rewrite trapezoidIntegration_part.
  - rewrite <- (sum_range_telescope _ F (length bw) Hstep).
    rewrite (sum_by_lookup _ (fun i => sum_range (trapezoid spwave flux) (F i) (F (S i)))).
    + now rewrite length_fmap, Hlbf.
    + intros i Hi. rewrite length_fmap, Hlbf in Hi.
      destruct (Hbin i Hi) as (q & Hq & Hqe).
      exists q. split; [|exact Hqe]. now rewrite list_lookup_fmap, Hq.
  - apply composite_call_length.
  - apply Hmono. lia.
  - apply lookup_lt_Some in Hxn. lia.
Qed.

(** C7. Adding, multiplying or redshifting an [Observation] raises
    [NotImplementedError] whatever the operand is, returns no value and
    leaves the instance and the output as they were, in both modules. *)
Theorem unsupported_operations_raise
    {Spectrum Bandpass : Type} {C : Collaborators Spectrum Bandpass}
    (A B : Type) (other : A) (w : World Spectrum Bandpass) :
  (exists msg, observation.__mul__ (B:=B) other w = (Raise (NotImplementedError msg), w)) /\
  (exists msg, observation.__rmul__ (B:=B) other w = (Raise (NotImplementedError msg), w)) /\
  (exists msg, observation.__add__ (B:=B) other w = (Raise (NotImplementedError msg), w)) /\
  (exists msg, observation.__radd__ (B:=B) other w = (Raise (NotImplementedError msg), w)) /\
  (exists msg, observation.redshift (B:=B) other w = (Raise (NotImplementedError msg), w)) /\
  (exists msg, newobservation.__mul__ (B:=B) other w = (Raise (NotImplementedError msg), w)) /\
  (exists msg, newobservation.__rmul__ (B:=B) other w = (Raise (NotImplementedError msg), w)) /\
  (exists msg, newobservation.__add__ (B:=B) other w = (Raise (NotImplementedError msg), w)) /\
  (exists msg, newobservation.__radd__ (B:=B) other w = (Raise (NotImplementedError msg), w)) /\
  (exists msg, newobservation.redshift (B:=B) other w = (Raise (NotImplementedError msg), w)).
Proof. repeat split; eexists; reflexivity. Qed.

Lemma compute_endpoints_short (bs : array) :
  (length bs < 2)%nat -> exists msg, compute_endpoints bs = Raise (IndexError msg).
Proof.
  intros H. destruct bs as [|x [|y r]]; [| |simpl in H; lia];
    eexists; reflexivity.
Qed.

Section Binset.

Context {Spectrum Bandpass : Type} {C : Collaborators Spectrum Bandpass}.

Lemma initbinflux_short (w : World Spectrum Bandpass) (bs : array) :
  binwave (self w) = Some bs -> (length bs < 2)%nat ->
  exists msg,
    observation.initbinflux w = (Raise (IndexError msg), w) /\
    newobservation.initbinflux w = (Raise (IndexError msg), w).
Proof.
  intros Hbw Hlen. destruct (compute_endpoints_short bs Hlen) as [msg He].
  exists msg.
  unfold observation.initbinflux, newobservation.initbinflux, bind, getattr, lift.
  rewrite Hbw, He. split; reflexivity.
Qed.

End Binset.

(** C10. A binset given by the caller is stored unchanged as [binwave] by
    [initbinset], in both modules, with no check, no error and no output,
    whatever it holds; a binset with fewer than two bin centers makes
    [initbinflux] raise afterwards. *)
Theorem initbinset_stores_any_binset
    {Spectrum Bandpass : Type} {C : Collaborators Spectrum Bandpass}
    (w : World Spectrum Bandpass) (binset : array) :
  let w' := mkWorld (set_binwave (Some binset) (self w)) (stdout w) in
  observation.initbinset (Some binset) w = (Ok tt, w') /\
  newobservation.initbinset (Some binset) w = (Ok tt, w') /\
  binwave (self w') = Some binset /\
  ((length binset < 2)%nat ->
   exists msg,
     observation.initbinflux w' = (Raise (IndexError msg), w') /\
     newobservation.initbinflux w' = (Raise (IndexError msg), w')).
Proof.
  intros w'. split; [reflexivity|]. split; [reflexivity|]. split; [reflexivity|].
  intros Hlen. now apply initbinflux_short with binset.
Qed.

Lemma initbinset_stores_any_binset_witness :
  let w := mkWorld (set_components flat_spectrum flat_bandpass new_object) [] in
  let w' := mkWorld (set_binwave (Some [3; 3; 1]) (self w)) (stdout w) in
  observation.initbinset (Some [3; 3; 1]) w = (Ok tt, w') /\
  exists msg,
    observation.initbinflux
      (mkWorld (set_binwave (Some [7]) (self w)) (stdout w))
    = (Raise (IndexError msg), mkWorld (set_binwave (Some [7]) (self w)) (stdout w)).
Proof.
  intros w w'. split.
  - exact (proj1 (initbinset_stores_any_binset w [3; 3; 1])).
  - destruct (initbinset_stores_any_binset w [7]) as (_ & _ & _ & H).
    destruct H as (msg & H1 & _); [simpl; lia|]. exists msg. exact H1.
Defined.

(** C8. With no binset given and a bandpass without a native bin grid
    ([bandWave()] raises [KeyError] or [AttributeError], or returns
    [None]), [initbinset] of [observation.py] sets [binwave] to the
    waveset of the spectrum, prints the advisory message once and raises
    nothing. *)
Theorem initbinset_falls_back_to_spectrum
    {Spectrum Bandpass : Type} {C : Collaborators Spectrum Bandpass}
    (w : World Spectrum Bandpass) (s : Spectrum) (b : Bandpass) :
  spectrum (self w) = Some s -> bandpass (self w) = Some b ->
  (bandWave b = Ok None \/
   (exists m, bandWave b = Raise (KeyError m)) \/
   (exists m, bandWave b = Raise (AttributeError m))) ->
  observation.initbinset None w
  = (Ok tt, mkWorld (set_binwave (Some (spectrum_wave s)) (self w))
                    (stdout w ++ [advisory b])).
Proof.
  intros Hs Hb Hband.
  destruct w as [[sp bp oc1 oc2 obw i0 il0 dw0 bf0 iw0] out]. simpl in Hs, Hb.
  subst sp bp.
  unfold observation.initbinset, bind, getattr, modify, print, ret. simpl.
  destruct Hband as [H|[[m H]|[m H]]]; rewrite H; reflexivity.
Qed.

Lemma initbinset_falls_back_to_spectrum_witness :
  let w := mkWorld (set_bandpass flat_bandpass (set_spectrum flat_spectrum new_object)) [] in
  exists w',
    observation.initbinset None w = (Ok tt, w') /\
    binwave (self w') = Some [100; 200; 300; 400; 500] /\
    stdout w' = [advisory flat_bandpass].
Proof.
  intros w. eexists. split.
  - apply (initbinset_falls_back_to_spectrum w flat_spectrum flat_bandpass).
    + reflexivity.
    + reflexivity.
    + left. reflexivity.
  - split; reflexivity.
Defined.

(** C5, as the code has it.  With no force policy, [validate_overlap]
    raises [ValueError] exactly when the overlap status is 'partial' or
    'none', and otherwise changes nothing.  The policy is compared in
    lower case: when it is 'taper' the spectrum is replaced by its tapered
    form (of the tabulated spectrum when it has no [taper] of its own);
    when it starts with 'extrap' nothing is checked or changed, whatever
    the overlap; every other policy raises [KeyError]. *)
Theorem validate_overlap_policy
    {Spectrum Bandpass : Type} {C : Collaborators Spectrum Bandpass}
    (w : World Spectrum Bandpass) (s : Spectrum) (b : Bandpass) :
  spectrum (self w) = Some s -> bandpass (self w) = Some b ->
  ((exists msg, observation.validate_overlap None w = (Raise (ValueError msg), w)) <->
   (check_overlap s b = "partial" \/ check_overlap s b = "none")%string) /\
  (~ (check_overlap s b = "partial" \/ check_overlap s b = "none")%string ->
   observation.validate_overlap None w = (Ok tt, w)) /\
  (forall force s',
     lower force = "taper"%string ->
     (taper s = Ok s' \/
      ((exists m, taper s = Raise (AttributeError m)) /\
       exists t, tabulate s = Ok t /\ taper t = Ok s')) ->
     observation.validate_overlap (Some force) w
     = (Ok tt, mkWorld (set_spectrum s' (self w)) (stdout w))) /\
  (forall force,
     startswith (lower force) "extrap" = true ->
     observation.validate_overlap (Some force) w = (Ok tt, w)) /\
  (forall force,
     lower force <> "taper"%string -> startswith (lower force) "extrap" = false ->
     exists msg, observation.validate_overlap (Some force) w = (Raise (KeyError msg), w)).
Proof.
  intros Hs Hb.
  destruct w as [[sp bp oc1 oc2 obw i0 il0 dw0 bf0 iw0] out]. simpl in Hs, Hb.
  subst sp bp.
  split; [|split; [|split; [|split]]].
  - unfold observation.validate_overlap, bind, getattr, ret, raise. simpl.
    destruct (String.eqb_spec (check_overlap s b) "full") as [E|E].
    { rewrite E. split; [intros [msg H]; discriminate|intros [H|H]; discriminate]. }
    destruct (String.eqb_spec (check_overlap s b) "partial") as [E1|E1].
    { split; [now left|]. intros _. eexists. reflexivity. }
    destruct (String.eqb_spec (check_overlap s b) "none") as [E2|E2].
    { split; [now right|]. intros _. eexists. reflexivity. }
    split; [intros [msg H]; discriminate|intros [H|H]; contradiction].
  - intros Hno.
    unfold observation.validate_overlap, bind, getattr, ret, raise. simpl.
    destruct (String.eqb_spec (check_overlap s b) "full"); [reflexivity|].
    destruct (String.eqb_spec (check_overlap s b) "partial"); [exfalso; auto|].
    destruct (String.eqb_spec (check_overlap s b) "none"); [exfalso; auto|].
    reflexivity.
  - intros force s' Hf Ht.
    unfold observation.validate_overlap, bind, getattr, lift, modify. simpl.
    rewrite Hf. simpl.
    destruct Ht as [Ht|[[m Hm] (t & Htab & Ht)]].
    + rewrite Ht. reflexivity.
    + rewrite Hm, Htab. simpl. rewrite Ht. reflexivity.
  - intros force Hx.
    unfold observation.validate_overlap.
    destruct (String.eqb_spec (lower force) "taper") as [E|E].
    + rewrite E in Hx. discriminate.
    + rewrite Hx. reflexivity.
  - intros force Hne Hx.
    unfold observation.validate_overlap.
    destruct (String.eqb_spec (lower force) "taper") as [E|E]; [contradiction|].
    rewrite Hx. eexists. reflexivity.
Qed.

Lemma validate_overlap_policy_witness :
  let w := started blue_spectrum red_bandpass in
  (exists msg, observation.validate_overlap None w = (Raise (ValueError msg), w)) /\
  observation.validate_overlap (Some "extrap"%string) w = (Ok tt, w) /\
  (exists s', ts_tapered s' = true /\
     observation.validate_overlap (Some "Taper"%string) w
     = (Ok tt, mkWorld (set_spectrum s' (self w)) (stdout w))) /\
  (exists msg, observation.validate_overlap (Some "clip"%string) w
               = (Raise (KeyError msg), w)).
Proof.
  intros w.
  destruct (validate_overlap_policy w blue_spectrum red_bandpass eq_refl eq_refl)
    as (Hnone & _ & Htaper & Hextrap & Hother).
  split; [|split; [|split]].
  - apply Hnone. right. reflexivity.
  - apply Hextrap. reflexivity.
  - eexists. split; [|apply Htaper; [reflexivity|left; reflexivity]]. reflexivity.
  - apply Hother; [discriminate|reflexivity].
Defined.

(** C5 as it was stated compares the policy as written: a policy other
    than 'taper' that does not start with 'extrap' would raise.  The
    policy 'TAPER' is such a value and is accepted. *)
Lemma validate_overlap_uppercase_accepted :
  ~ (forall (force : string) (w : World TableSpectrum TableBandpass),
       force <> "taper"%string -> startswith force "extrap" = false ->
       exists msg,
         fst (observation.validate_overlap (Some force) w) = Raise (KeyError msg)).
Proof.
  intros H.
  destruct (H "TAPER"%string (started flat_spectrum flat_bandpass)) as [msg Hm].
  - discriminate.
  - reflexivity.
  - vm_compute in Hm. discriminate.
Qed.

Section Construction.

Context {Spectrum Bandpass : Type} {C : Collaborators Spectrum Bandpass}.

(** A call of [validate_overlap] that returns leaves the instance as it
    was, up to the spectrum. *)
Lemma validate_overlap_returns (w w1 : World Spectrum Bandpass)
      (s : Spectrum) (b : Bandpass) (force : option string) :
  spectrum (self w) = Some s -> bandpass (self w) = Some b ->
  observation.validate_overlap force w = (Ok tt, w1) ->
  exists s', w1 = mkWorld (set_spectrum s' (self w)) (stdout w).
Proof.
  intros Hs Hb.
  destruct w as [[sp bp oc1 oc2 obw i0 il0 dw0 bf0 iw0] out]. simpl in Hs, Hb.
  subst sp bp.
  unfold observation.validate_overlap, bind, getattr, lift, modify, ret, raise.
  destruct force as [force|].
  - destruct (String.eqb (lower force) "taper"); cbn.
    + destruct (taper s) as [s'|e] eqn:Ht; cbn.
      * intros H. injection H as <-. now exists s'.
      * destruct e; cbn; try discriminate.
        destruct (tabulate s) as [t|e']; cbn; [|discriminate].
        destruct (taper t) as [s'|e']; cbn; [|discriminate].
        intros H. injection H as <-. now exists s'.
    + destruct (startswith (lower force) "extrap"); cbn; [|discriminate].
      intros H. injection H as <-. now exists s.
  - cbn. destruct (String.eqb (check_overlap s b) "full"); cbn.
    { intros H. injection H as <-. now exists s. }
    destruct (String.eqb (check_overlap s b) "partial"); cbn; [discriminate|].
    destruct (String.eqb (check_overlap s b) "none"); cbn; [discriminate|].
    intros H. injection H as <-. now exists s.
Qed.

End Construction.

Section Constructor.

Context {Spectrum Bandpass : Type} {C : Collaborators Spectrum Bandpass}.

(** The instance on which [initbinset] is called in [__init__], once the
    overlap is validated and the composite is built on the spectrum [s]. *)
Lemma construct_after_validation (spec s : Spectrum) (band : Bandpass)
      (binset : option array) (force : option string) :
  observation.validate_overlap force (started spec band)
  = (Ok tt, mkWorld (set_spectrum s (self (started spec band))) []) ->
  observation.construct spec band binset force
  = (observation.initbinset binset >> observation.initbinflux)
      (mkWorld (mkObservation (Some s) (Some band) (Some s) (Some band)
                  None None None None None None) []).
Proof.
  intros Hv.
  unfold observation.construct, observation.__init__.
  unfold bind at 1. simpl. unfold bind at 1. simpl. unfold bind at 1.
  unfold started in Hv. rewrite Hv. reflexivity.
Qed.

Lemma construct_when_validation_raises (spec : Spectrum) (band : Bandpass)
      (binset : option array) (force : option string) (e : exn)
      (w1 : World Spectrum Bandpass) :
  observation.validate_overlap force (started spec band) = (Raise e, w1) ->
  observation.construct spec band binset force = (Raise e, w1).
Proof.
  intros Hv.
  unfold observation.construct, observation.__init__.
  unfold bind at 1. simpl. unfold bind at 1. simpl. unfold bind at 1.
  unfold started in Hv. rewrite Hv. reflexivity.
Qed.

End Constructor.

(** C6, as the code has it.  With a binset of one bin center the
    construction of an [Observation] raises.  In [newobservation.py] it
    raises [IndexError] (the midpoint array is empty).  In
    [observation.py] the overlap is validated first: when
    [validate_overlap] raises, the construction raises that error, and
    when it returns, the construction raises [IndexError]. *)
Theorem single_bin_center_raises
    {Spectrum Bandpass : Type} {C : Collaborators Spectrum Bandpass}
    (spec : Spectrum) (band : Bandpass) (x : Q) (force : option string) :
  (exists msg,
     fst (newobservation.construct spec band (Some [x])) = Raise (IndexError msg)) /\
  (forall e,
     fst (observation.validate_overlap force (started spec band)) = Raise e ->
     fst (observation.construct spec band (Some [x]) force) = Raise e) /\
  (fst (observation.validate_overlap force (started spec band)) = Ok tt ->
   exists msg,
     fst (observation.construct spec band (Some [x]) force) = Raise (IndexError msg)).
Proof.
  split; [eexists; reflexivity|].
  destruct (observation.validate_overlap force (started spec band)) as [r w1] eqn:E.
  simpl. split.
  - intros e ->.
    now rewrite (construct_when_validation_raises spec band (Some [x]) force e w1 E).
  - intros ->.
    destruct (validate_overlap_returns (started spec band) w1 spec band force
                eq_refl eq_refl E) as [s' ->].
    rewrite (construct_after_validation spec s' band (Some [x]) force E).
    eexists. reflexivity.
Qed.

Lemma single_bin_center_raises_witness :
  (exists msg,
     fst (observation.construct flat_spectrum flat_bandpass (Some [150]) None)
     = Raise (IndexError msg)) /\
  (exists msg,
     fst (observation.construct blue_spectrum red_bandpass (Some [150]) None)
     = Raise (ValueError msg)).
Proof.
  split.
  - destruct (single_bin_center_raises flat_spectrum flat_bandpass 150 None)
      as (_ & _ & H).
    apply H. reflexivity.
  - destruct (single_bin_center_raises blue_spectrum red_bandpass 150 None)
      as (_ & H & _).
    eexists. apply H. reflexivity.
Defined.

(** C6 as it was stated: every construction with one bin center raises
    the error of the degenerate binset.  With a spectrum and a bandpass
    that are disjoint and no force policy, the error is the [ValueError]
    of [validate_overlap], which runs before the binning. *)
Lemma single_bin_center_overlap_error :
  fst (observation.construct blue_spectrum red_bandpass (Some [7]) None)
  = Raise (ValueError "Spectrum and bandpass are disjoint") /\
  ~ (forall (spec : TableSpectrum) (band : TableBandpass) (x : Q) (force : option string),
       exists msg,
         fst (observation.construct spec band (Some [x]) force) = Raise (IndexError msg)).
Proof.
  split; [reflexivity|].
  intros H. destruct (H blue_spectrum red_bandpass 7 None) as [msg Hm].
  vm_compute in Hm. discriminate.
Qed.

Lemma raw_sum_bins_add_up_witness :
  exists w' binflux,
    newobservation.initbinflux (binned flat_spectrum flat_bandpass [150; 250; 350; 450])
    = (Ok tt, w') /\
    _binflux (self w') = Some binflux /\
    sum (finite_value <$> binflux) == 800.
Proof.
  destruct (raw_sum_bins_add_up
              (binned flat_spectrum flat_bandpass [150; 250; 350; 450])
              [150; 250; 350; 450] scenario_endpoints scenario_grid
              flat_spectrum flat_bandpass)
    as (w' & bf & e0 & en & x0 & xn & Hrun & Hbf & _ & _ & H0 & Hn & _ & _ & _ & _ & Hsum).
  - reflexivity.
  - reflexivity.
  - reflexivity.
  - vm_compute. reflexivity.
  - vm_compute. reflexivity.
  - intros i a b Ha Hb.
    destruct i as [|[|[|[|i]]]]; vm_compute in Ha, Hb;
      try discriminate; injection Ha as <-; injection Hb as <-; lia.
  - exists w', bf. split; [exact Hrun|]. split; [exact Hbf|].
    vm_compute in H0. injection H0 as <-. vm_compute in Hn. injection Hn as <-.
    rewrite Hsum. vm_compute. reflexivity.
Defined.

(** A bin whose index range is empty: the slices are empty, the raw sum
    and the width are 0, and the quotient of [observation.py] is [nan]. *)
Lemma empty_range_bin (av dw : array) (first last : Z) :
  (0 <= last <= first)%Z ->
  sum (slice dw first last) = 0 /\
  sum (multiply (slice av first last) (slice dw first last)) = 0 /\
  true_divide (sum (multiply (slice av first last) (slice dw first last)))
              (sum (slice dw first last)) = NaN.
Proof.
  intros H.
  assert (Hs : forall a : array, slice a first last = []).
  { intros a. unfold slice, bound.
    destruct (Z.ltb_spec first 0); [lia|]. destruct (Z.ltb_spec last 0); [lia|].
    replace (Nat.min (Z.to_nat last) (length a) - Nat.min (Z.to_nat first) (length a))%nat
      with 0%nat by lia.
    reflexivity. }
  rewrite !Hs. repeat split; reflexivity.
Qed.

(** C2, on the code.  With the bin centers [1, 1, 2], which [initbinset]
    accepts, the first bin of [observation.py] has the empty index range
    [0, 0): the construction returns, the width of the bin is 0, and its
    flux is [nan], the quotient 0/0, not 0.  In [newobservation.py] the
    flux of that bin is 0. *)
Theorem empty_bin_flux_is_nan :
  exists w' w'',
    observation.construct flat_spectrum flat_bandpass (Some [1; 1; 2]) None = (Ok tt, w') /\
    _indices (self w') = Some [0; 0; 1]%Z /\
    _indices_last (self w') = Some [0; 1; 3]%Z /\
    (exists f1 f2, _binflux (self w') = Some [NaN; Finite f1; Finite f2]) /\
    (exists d1 d2, _intwave (self w') = Some [0; d1; d2]) /\
    newobservation.construct flat_spectrum flat_bandpass (Some [1; 1; 2]) = (Ok tt, w'') /\
    (exists f1 f2, _binflux (self w'') = Some [Finite 0; Finite f1; Finite f2]).
Proof.
  destruct (observation.construct flat_spectrum flat_bandpass (Some [1; 1; 2]) None)
    as [r w'] eqn:E.
  destruct (newobservation.construct flat_spectrum flat_bandpass (Some [1; 1; 2]))
    as [r' w''] eqn:E'.
  vm_compute in E. injection E as <- <-.
  vm_compute in E'. injection E' as <- <-.
  do 2 eexists. split; [reflexivity|]. simpl.
  split; [reflexivity|]. split; [reflexivity|].
  split; [do 2 eexists; reflexivity|]. split; [do 2 eexists; reflexivity|].
  split; [reflexivity|]. do 2 eexists; reflexivity.
Qed.

(** ** The outcome of [initbinflux] on any bin centers *)

Lemma edge_index_found (spw e : array) (i : nat) :
  increasing spw -> (forall v, occurs v e -> occurs v spw) -> (i < length e)%nat ->
  exists v x, e !! i = Some v /\ spw !! edge_index spw e i = Some x /\ x == v /\
              searchsorted spw e !! i = Some (Z.of_nat (edge_index spw e i)).
Proof.
  intros Hinc Hsub Hi.
  destruct (lookup_lt_is_Some_2 e i Hi) as [v Hv].
  unfold edge_index. rewrite (nth_lookup_Some _ _ 0 _ Hv).
  destruct (searchsorted1_occurs spw v Hinc) as (x & Hx & Hxv).
  { apply Hsub. exists v. split; [|reflexivity]. apply list_elem_of_lookup. now exists i. }
  exists v, x. split; [assumption|]. split; [assumption|]. split; [assumption|].
  now apply lookup_searchsorted.
Qed.

Section Outcomes.

Context {Spectrum Bandpass : Type} {C : Collaborators Spectrum Bandpass}.

Lemma initbinflux_outcome (w : World Spectrum Bandpass) (bw : array)
      (c1 : Spectrum) (c2 : Bandpass) :
  binwave (self w) = Some bw ->
  component1 (self w) = Some c1 -> component2 (self w) = Some c2 ->
  composite_wave c1 c2 <> [] -> (2 <= length bw)%nat ->
  exists e spw ind indl bf iw,
    compute_endpoints bw = Ok e /\ length e = (length bw + 1)%nat /\
    spw = union1d (union1d (composite_wave c1 c2) e) bw /\
    observation.initbinflux w
    = (Ok tt,
       mkWorld (mkObservation (spectrum (self w)) (bandpass (self w))
                  (Some c1) (Some c2) (Some bw) (Some ind) (Some indl)
                  (Some (subtract (from1 spw) (upto_last spw))) (Some bf) (Some iw))
               (stdout w)) /\
    length ind = length bw /\ length indl = length bw /\
    length bf = length bw /\ length iw = length bw /\
    (forall i, (i <= length bw)%nat ->
       exists v x, e !! i = Some v /\ spw !! edge_index spw e i = Some x /\ x == v) /\
    forall i, (i < length bw)%nat ->
      ind !! i = Some (Z.of_nat (edge_index spw e i)) /\
      indl !! i = Some (Z.of_nat (edge_index spw e (S i))) /\
      exists s wd,
        bf !! i = Some (true_divide s wd) /\ iw !! i = Some wd /\
        s == sum_range (trapezoid spw (composite_call c1 c2 spw))
                       (edge_index spw e i) (edge_index spw e (S i)) /\
        wd == sum_range (width spw) (edge_index spw e i) (edge_index spw e (S i)) /\
        ((edge_index spw e (S i) <= edge_index spw e i)%nat -> s = 0 /\ wd = 0).
Proof.
  intros Hbw Hc1 Hc2 Hwave Hn.
  destruct w as [[sp bp oc1 oc2 obw i0 il0 dw0 bf0 iw0] out]. simpl in Hbw, Hc1, Hc2.
  subst obw oc1 oc2. simpl.
  destruct (compute_endpoints_ok bw Hn) as (b0 & b1 & bp' & bl & _ & _ & _ & _ & He).
  destruct (compute_endpoints_length bw _ He) as [_ Hlen].
  set (e := _ :: _ ++ [_]) in *.
  assert (He_ne : e <> []) by discriminate.
  assert (Hbw_ne : bw <> []) by (destruct bw; [simpl in Hn; lia|discriminate]).
  pose proof (MergeWaveSets_ok _ _ Hwave He_ne) as Hg.
  set (g := union1d (composite_wave c1 c2) e) in Hg.
  assert (Hg_ne : g <> []) by now apply union1d_nonempty.
  pose proof (MergeWaveSets_ok _ _ Hg_ne Hbw_ne) as Hs.
  set (spw := union1d g bw) in Hs.
  assert (Hsinc : increasing spw) by apply union1d_increasing.
  assert (Hsub : forall v, occurs v e -> occurs v spw).
  { intros v Hv. subst spw g. rewrite !occurs_union1d. tauto. }
  destruct (initbinflux_run sp bp c1 c2 bw i0 il0 dw0 bf0 iw0 out e g spw He Hlen Hg Hs)
    as (bf & iw & Hrun & Hlbf & Hliw & Hbins).
  eexists e, spw, _, _, bf, iw.
  split; [exact He|]. split; [exact Hlen|]. split; [reflexivity|].
  split; [exact Hrun|].
  split; [rewrite length_upto_last, length_searchsorted; lia|].
  split; [rewrite length_indices_last, length_searchsorted; lia|].
  split; [exact Hlbf|]. split; [exact Hliw|]. split.
  - intros i Hi.
    destruct (edge_index_found spw e i Hsinc Hsub ltac:(lia)) as (v & x & Hv & Hx & Hxv & _).
    now exists v, x.
  - intros i Hi.
    destruct (edge_index_found spw e i Hsinc Hsub ltac:(lia)) as (v & x & Hv & Hx & Hxv & Hi1).
    destruct (edge_index_found spw e (S i) Hsinc Hsub ltac:(lia))
      as (v' & y & Hv' & Hy & Hyv & Hi2).
    assert (Hind : upto_last (searchsorted spw e) !! i
                   = Some (Z.of_nat (edge_index spw e i))).
    { rewrite lookup_upto_last; [assumption|]. rewrite length_searchsorted. lia. }
    pose proof (lookup_indices_last _ i _ _ Hi1 Hi2) as Hindl.
    split; [exact Hind|]. split; [exact Hindl|].
    destruct (Hbins i Hi) as (f' & l' & Hf' & Hl' & Hbf & Hiw).
    rewrite Hind in Hf'. injection Hf' as <-.
    rewrite Hindl in Hl'. injection Hl' as <-.
    assert (Hlast : (S (edge_index spw e (S i)) <= length spw)%nat)
      by (apply lookup_lt_Some in Hy; lia).
    eexists _, _. split; [exact Hbf|]. split; [exact Hiw|].
    split; [apply bin_flux_sum; [apply composite_call_length|exact Hlast]|].
    split; [apply bin_width_sum; exact Hlast|].
    intros Hle.
    destruct (empty_range_bin
                (divide_by (add (from1 (composite_call c1 c2 spw))
                                (upto_last (composite_call c1 c2 spw))) 2)
                (subtract (from1 spw) (upto_last spw))
                (Z.of_nat (edge_index spw e i)) (Z.of_nat (edge_index spw e (S i))))
      as (Hw0 & Hs0 & _); [lia|].
    split; assumption.
Qed.

Lemma new_initbinflux_outcome (w : World Spectrum Bandpass) (bw : array)
      (c1 : Spectrum) (c2 : Bandpass) :
  binwave (self w) = Some bw ->
  component1 (self w) = Some c1 -> component2 (self w) = Some c2 ->
  composite_wave c1 c2 <> [] -> (2 <= length bw)%nat ->
  exists e spw ind indl bf,
    compute_endpoints bw = Ok e /\ length e = (length bw + 1)%nat /\
    spw = union1d (composite_wave c1 c2) e /\
    newobservation.initbinflux w
    = (Ok tt,
       mkWorld (mkObservation (spectrum (self w)) (bandpass (self w))
                  (Some c1) (Some c2) (Some bw) (Some ind) (Some indl)
                  (Some (subtract (from1 spw) (upto_last spw))) (Some bf)
                  (_intwave (self w)))
               (stdout w)) /\
    length ind = length bw /\ length indl = length bw /\ length bf = length bw /\
    (forall i, (i <= length bw)%nat ->
       exists v x, e !! i = Some v /\ spw !! edge_index spw e i = Some x /\ x == v) /\
    forall i, (i < length bw)%nat ->
      ind !! i = Some (Z.of_nat (edge_index spw e i)) /\
      indl !! i = Some (Z.of_nat (edge_index spw e (S i))) /\
      exists s,
        bf !! i = Some (Finite s) /\
        s == sum_range (trapezoid spw (composite_call c1 c2 spw))
                       (edge_index spw e i) (edge_index spw e (S i)).
Proof.
  intros Hbw Hc1 Hc2 Hwave Hn.
  destruct w as [[sp bp oc1 oc2 obw i0 il0 dw0 bf0 iw0] out]. simpl in Hbw, Hc1, Hc2.
  subst obw oc1 oc2. simpl.
  destruct (compute_endpoints_ok bw Hn) as (b0 & b1 & bp' & bl & _ & _ & _ & _ & He).
  destruct (compute_endpoints_length bw _ He) as [_ Hlen].
  set (e := _ :: _ ++ [_]) in *.
  assert (He_ne : e <> []) by discriminate.
  pose proof (MergeWaveSets_ok _ _ Hwave He_ne) as Hs.
  set (spw := union1d (composite_wave c1 c2) e) in Hs.
  assert (Hsinc : increasing spw) by apply union1d_increasing.
  assert (Hsub : forall v, occurs v e -> occurs v spw).
  { intros v Hv. subst spw. rewrite occurs_union1d. tauto. }
  destruct (new_initbinflux_run sp bp c1 c2 bw i0 il0 dw0 bf0 iw0 out e spw He Hlen Hs)
    as (bf & Hrun & Hlbf & Hbins).
  eexists e, spw, _, _, bf.
  split; [exact He|]. split; [exact Hlen|]. split; [reflexivity|].
  split; [exact Hrun|].
  split; [rewrite length_upto_last, length_searchsorted; lia|].
  split; [rewrite length_indices_last, length_searchsorted; lia|].
  split; [exact Hlbf|]. split.
  - intros i Hi.
    destruct (edge_index_found spw e i Hsinc Hsub ltac:(lia)) as (v & x & Hv & Hx & Hxv & _).
    now exists v, x.
  - intros i Hi.
    destruct (edge_index_found spw e i Hsinc Hsub ltac:(lia)) as (v & x & Hv & Hx & Hxv & Hi1).
    destruct (edge_index_found spw e (S i) Hsinc Hsub ltac:(lia))
      as (v' & y & Hv' & Hy & Hyv & Hi2).
    assert (Hind : upto_last (searchsorted spw e) !! i
                   = Some (Z.of_nat (edge_index spw e i))).
    { rewrite lookup_upto_last; [assumption|]. rewrite length_searchsorted. lia. }
    pose proof (lookup_indices_last _ i _ _ Hi1 Hi2) as Hindl.
    split; [exact Hind|]. split; [exact Hindl|].
    destruct (Hbins i Hi) as (f' & l' & Hf' & Hl' & Hbf).
    rewrite Hind in Hf'. injection Hf' as <-.
    rewrite Hindl in Hl'. injection Hl' as <-.
    eexists. split; [exact Hbf|].
    apply bin_flux_sum; [apply composite_call_length|].
    apply lookup_lt_Some in Hy. lia.
Qed.

(** Without a natural waveset the merge fails (the merge is the one of
    the spec), and with fewer than two bin centers the endpoints do. *)
Lemma initbinflux_empty_wave (w : World Spectrum Bandpass) (bw : array)
      (c1 : Spectrum) (c2 : Bandpass) :
  binwave (self w) = Some bw ->
  component1 (self w) = Some c1 -> component2 (self w) = Some c2 ->
  composite_wave c1 c2 = [] -> (2 <= length bw)%nat ->
  observation.initbinflux w = (Raise EmptyInputError, w) /\
  newobservation.initbinflux w = (Raise EmptyInputError, w).
Proof.
  intros Hbw Hc1 Hc2 Hwave Hn.
  destruct (compute_endpoints_ok bw Hn) as (b0 & b1 & bp' & bl & _ & _ & _ & _ & He).
  destruct w as [[sp bp oc1 oc2 obw i0 il0 dw0 bf0 iw0] out]. simpl in Hbw, Hc1, Hc2.
  subst obw oc1 oc2.
  unfold observation.initbinflux, newobservation.initbinflux, bind, getattr, lift,
    self_wave, ret. simpl.
  rewrite He. simpl. rewrite Hwave. split; reflexivity.
Qed.

End Outcomes.

Section Returns.

Context {Spectrum Bandpass : Type} {C : Collaborators Spectrum Bandpass}.

Lemma initbinflux_ok_length (w w' : World Spectrum Bandpass) (bw : array) :
  binwave (self w) = Some bw ->
  observation.initbinflux w = (Ok tt, w') \/ newobservation.initbinflux w = (Ok tt, w') ->
  (2 <= length bw)%nat.
Proof.
  intros Hbw Hrun.
  destruct (Nat.le_gt_cases 2 (length bw)) as [|Hlt]; [assumption|exfalso].
  destruct (initbinflux_short w bw Hbw Hlt) as (msg & H1 & H2).
  destruct Hrun as [Hrun|Hrun]; [rewrite H1 in Hrun|rewrite H2 in Hrun]; discriminate.
Qed.

End Returns.

Lemma sum_range_width (w : array) (first last : nat) :
  (first <= last)%nat ->
  sum_range (width w) first last == nth last w 0 - nth first w 0.
Proof.
  intros H. replace last with (first + (last - first))%nat by lia.
  generalize (last - first)%nat as n. intros n.
  induction n as [|n IH].
  - rewrite Nat.add_0_r, sum_range_empty by lia. lra.
  - rewrite (sum_range_split _ first (first + n) (first + S n)) by lia.
    rewrite IH. unfold sum_range at 1.
    replace (first + S n - (first + n))%nat with 1%nat by lia.
    unfold sum, width. simpl.
    replace (first + S n)%nat with (S (first + n)) by lia. lra.
Qed.

Lemma sum_range_scale (c : Q) (g : nat -> Q) (first last : nat) :
  sum_range (fun k => c * g k) first last == c * sum_range g first last.
Proof.
  unfold sum_range, sum. induction (seq first (last - first)) as [|k idx IH].
  - simpl. ring.
  - rewrite !fmap_cons. simpl. rewrite IH. ring.
Qed.

Lemma increasing_lookup_le (a : array) (i j : nat) (x y : Q) :
  increasing a -> a !! i = Some x -> a !! j = Some y -> x <= y -> (i <= j)%nat.
Proof.
  intros Ha Hx Hy Hle.
  destruct (Nat.le_gt_cases i j) as [|Hgt]; [assumption|exfalso].
  assert (y < x).
  { apply (increasing_lt a Ha (i - j - 1) j y x Hy).
    now replace (j + S (i - j - 1))%nat with i by lia. }
  lra.
Qed.

(** ** The flux density of the bins *)



(** ** Further properties of the code *)

(** X1. On an instance whose natural waveset is not empty, [initbinflux]
    returns, in both modules, exactly when there are at least two bin
    centers; when it raises, the instance is left as it was. *)
Theorem initbinflux_returns_iff
    {Spectrum Bandpass : Type} {C : Collaborators Spectrum Bandpass}
    (w : World Spectrum Bandpass) (bw : array) (c1 : Spectrum) (c2 : Bandpass) :
  binwave (self w) = Some bw ->
  component1 (self w) = Some c1 -> component2 (self w) = Some c2 ->
  composite_wave c1 c2 <> [] ->
  (fst (observation.initbinflux w) = Ok tt <-> (2 <= length bw)%nat) /\
  (fst (newobservation.initbinflux w) = Ok tt <-> (2 <= length bw)%nat) /\
  (fst (observation.initbinflux w) <> Ok tt -> snd (observation.initbinflux w) = w) /\
  (fst (newobservation.initbinflux w) <> Ok tt -> snd (newobservation.initbinflux w) = w).
Proof.
  intros Hbw Hc1 Hc2 Hwave.
  destruct (Nat.le_gt_cases 2 (length bw)) as [Hn|Hlt].
  - destruct (initbinflux_outcome w bw c1 c2 Hbw Hc1 Hc2 Hwave Hn)
      as (e & spw & ind & indl & bf & iw & _ & _ & _ & Hrun & _).
    destruct (new_initbinflux_outcome w bw c1 c2 Hbw Hc1 Hc2 Hwave Hn)
      as (e' & spw' & ind' & indl' & bf' & _ & _ & _ & Hrun' & _).
    rewrite Hrun, Hrun'. simpl.
    split; [tauto|]. split; [tauto|]. split; intros H; now contradiction H.
  - destruct (initbinflux_short w bw Hbw Hlt) as (msg & H1 & H2).
    rewrite H1, H2. simpl.
    split; [split; [discriminate|lia]|]. split; [split; [discriminate|lia]|].
    split; reflexivity.
Qed.

Lemma initbinflux_returns_iff_witness :
  fst (observation.initbinflux (binned flat_spectrum flat_bandpass [150; 250])) = Ok tt /\
  fst (newobservation.initbinflux (binned flat_spectrum flat_bandpass [150])) <> Ok tt.
Proof.
  split.
  - destruct (initbinflux_returns_iff (binned flat_spectrum flat_bandpass [150; 250])
                [150; 250] flat_spectrum flat_bandpass eq_refl eq_refl eq_refl)
      as ([_ Hn] & _).
    + vm_compute. discriminate.
    + apply Hn. simpl. lia.
  - intros H.
    destruct (initbinflux_returns_iff (binned flat_spectrum flat_bandpass [150])
                [150] flat_spectrum flat_bandpass eq_refl eq_refl eq_refl)
      as (_ & [Hn _] & _).
    + vm_compute. discriminate.
    + apply Hn in H. simpl in H. lia.
Defined.

(** X2. A call of [initbinflux] that returns leaves [spectrum],
    [bandpass], the components, [binwave] and the output as they were,
    and the arrays it stores ([_indices], [_indices_last], [_binflux],
    and [_intwave] in [observation.py]) have one entry per bin center;
    [newobservation.py] does not touch [_intwave]. *)
Theorem initbinflux_keeps_inputs
    {Spectrum Bandpass : Type} {C : Collaborators Spectrum Bandpass}
    (w w' : World Spectrum Bandpass) (bw : array) (c1 : Spectrum) (c2 : Bandpass) :
  binwave (self w) = Some bw ->
  component1 (self w) = Some c1 -> component2 (self w) = Some c2 ->
  composite_wave c1 c2 <> [] ->
  (observation.initbinflux w = (Ok tt, w') ->
   spectrum (self w') = spectrum (self w) /\
   bandpass (self w') = bandpass (self w) /\
   component1 (self w') = Some c1 /\ component2 (self w') = Some c2 /\
   binwave (self w') = Some bw /\
   stdout w' = stdout w /\
   exists ind indl bf iw,
     _indices (self w') = Some ind /\ _indices_last (self w') = Some indl /\
     _binflux (self w') = Some bf /\ _intwave (self w') = Some iw /\
     length ind = length bw /\ length indl = length bw /\
     length bf = length bw /\ length iw = length bw) /\
  (newobservation.initbinflux w = (Ok tt, w') ->
   spectrum (self w') = spectrum (self w) /\
   bandpass (self w') = bandpass (self w) /\
   component1 (self w') = Some c1 /\ component2 (self w') = Some c2 /\
   binwave (self w') = Some bw /\
   stdout w' = stdout w /\
   _intwave (self w') = _intwave (self w) /\
   exists ind indl bf,
     _indices (self w') = Some ind /\ _indices_last (self w') = Some indl /\
     _binflux (self w') = Some bf /\
     length ind = length bw /\ length indl = length bw /\ length bf = length bw).
Proof.
  intros Hbw Hc1 Hc2 Hwave. split; intros Hrun.
  - pose proof (initbinflux_ok_length w w' bw Hbw (or_introl Hrun)) as Hn.
    destruct (initbinflux_outcome w bw c1 c2 Hbw Hc1 Hc2 Hwave Hn)
      as (e & spw & ind & indl & bf & iw & _ & _ & _ & Hout & Hl1 & Hl2 & Hl3 & Hl4 & _).
    rewrite Hout in Hrun. injection Hrun as <-. simpl.
    do 6 (split; [reflexivity|]). exists ind, indl, bf, iw.
    do 4 (split; [reflexivity|]). repeat split; assumption.
  - pose proof (initbinflux_ok_length w w' bw Hbw (or_intror Hrun)) as Hn.
    destruct (new_initbinflux_outcome w bw c1 c2 Hbw Hc1 Hc2 Hwave Hn)
      as (e & spw & ind & indl & bf & _ & _ & _ & Hout & Hl1 & Hl2 & Hl3 & _).
    rewrite Hout in Hrun. injection Hrun as <-. simpl.
    do 7 (split; [reflexivity|]). exists ind, indl, bf.
    do 3 (split; [reflexivity|]). repeat split; assumption.
Qed.

Lemma initbinflux_keeps_inputs_witness :
  let w := binned flat_spectrum flat_bandpass [150; 250; 350] in
  exists w' bf,
    observation.initbinflux w = (Ok tt, w') /\
    binwave (self w') = Some [150; 250; 350] /\ stdout w' = [] /\
    _binflux (self w') = Some bf /\ length bf = 3%nat.
Proof.
  intros w.
  destruct (observation.initbinflux w) as [r w'] eqn:E.
  assert (Hr : r = Ok tt) by (vm_compute in E; now injection E as <- _).
  subst r.
  destruct (initbinflux_keeps_inputs w w' [150; 250; 350] flat_spectrum flat_bandpass
              eq_refl eq_refl eq_refl) as [H _].
  - vm_compute. discriminate.
  - destruct (H E) as (_ & _ & _ & _ & Hb & Ho & (ind & indl & bf & iw & _ & _ & Hbf & _
                       & _ & _ & Hl & _)).
    exists w', bf. repeat split; assumption.
Defined.

(** X3. After [initbinflux], in both modules, the index ranges of the
    bins are contiguous, [_indices_last[i] = _indices[i+1]], and every
    stored index is a position of the merged grid, between 0 and
    [len(_deltaw)]: no slice of the loop reaches outside the arrays. *)
Theorem bin_ranges_are_contiguous
    {Spectrum Bandpass : Type} {C : Collaborators Spectrum Bandpass}
    (w w' : World Spectrum Bandpass) (bw : array) (c1 : Spectrum) (c2 : Bandpass) :
  binwave (self w) = Some bw ->
  component1 (self w) = Some c1 -> component2 (self w) = Some c2 ->
  composite_wave c1 c2 <> [] ->
  observation.initbinflux w = (Ok tt, w') \/ newobservation.initbinflux w = (Ok tt, w') ->
  exists ind indl dw,
    _indices (self w') = Some ind /\ _indices_last (self w') = Some indl /\
    _deltaw (self w') = Some dw /\
    (forall i, (S i < length bw)%nat -> indl !! i = ind !! S i) /\
    (forall i k, ind !! i = Some k \/ indl !! i = Some k ->
                 (0 <= k <= Z.of_nat (length dw))%Z).
Proof.
  intros Hbw Hc1 Hc2 Hwave Hrun.
  pose proof (initbinflux_ok_length w w' bw Hbw Hrun) as Hn.
  assert (Hgen : exists e spw ind indl,
            _indices (self w') = Some ind /\ _indices_last (self w') = Some indl /\
            _deltaw (self w') = Some (subtract (from1 spw) (upto_last spw)) /\
            length ind = length bw /\ length indl = length bw /\
            (forall i, (i <= length bw)%nat ->
               exists v x, e !! i = Some v /\ spw !! edge_index spw e i = Some x /\ x == v) /\
            forall i, (i < length bw)%nat ->
              ind !! i = Some (Z.of_nat (edge_index spw e i)) /\
              indl !! i = Some (Z.of_nat (edge_index spw e (S i)))).
  { destruct Hrun as [Hrun|Hrun].
    - destruct (initbinflux_outcome w bw c1 c2 Hbw Hc1 Hc2 Hwave Hn)
        as (e & spw & ind & indl & bf & iw & _ & _ & _ & Hout & Hl1 & Hl2 & _ & _ & He & Hb).
      rewrite Hout in Hrun. injection Hrun as <-. simpl.
      exists e, spw, ind, indl. do 3 (split; [reflexivity|]).
      split; [assumption|]. split; [assumption|]. split; [assumption|].
      intros i Hi. destruct (Hb i Hi) as (H1 & H2 & _). now split.
    - destruct (new_initbinflux_outcome w bw c1 c2 Hbw Hc1 Hc2 Hwave Hn)
        as (e & spw & ind & indl & bf & _ & _ & _ & Hout & Hl1 & Hl2 & _ & He & Hb).
      rewrite Hout in Hrun. injection Hrun as <-. simpl.
      exists e, spw, ind, indl. do 3 (split; [reflexivity|]).
      split; [assumption|]. split; [assumption|]. split; [assumption|].
      intros i Hi. destruct (Hb i Hi) as (H1 & H2 & _). now split. }
  destruct Hgen as (e & spw & ind & indl & Hi1 & Hi2 & Hdw & Hl1 & Hl2 & He & Hb).
  exists ind, indl, (subtract (from1 spw) (upto_last spw)).
  do 3 (split; [assumption|]). split.
  - intros i Hi. destruct (Hb i ltac:(lia)) as [_ H2].
    destruct (Hb (S i) Hi) as [H1 _]. now rewrite H1, H2.
  - intros i k Hk.
    assert (Hi : (i < length bw)%nat).
    { destruct Hk as [Hk|Hk]; apply lookup_lt_Some in Hk; lia. }
    destruct (Hb i Hi) as [H1 H2].
    unfold subtract. rewrite length_adjacent.
    destruct Hk as [Hk|Hk].
    + rewrite H1 in Hk. injection Hk as <-.
      destruct (He i ltac:(lia)) as (v & x & _ & Hx & _).
      apply lookup_lt_Some in Hx. lia.
    + rewrite H2 in Hk. injection Hk as <-.
      destruct (He (S i) ltac:(lia)) as (v & x & _ & Hx & _).
      apply lookup_lt_Some in Hx. lia.
Qed.

Lemma bin_ranges_are_contiguous_witness :
  let w := binned flat_spectrum flat_bandpass [3; 1; 2] in
  exists w' ind indl,
    newobservation.initbinflux w = (Ok tt, w') /\
    _indices (self w') = Some ind /\ _indices_last (self w') = Some indl /\
    indl !! 0%nat = ind !! 1%nat /\ indl !! 1%nat = ind !! 2%nat.
Proof.
  intros w.
  destruct (newobservation.initbinflux w) as [r w'] eqn:E.
  assert (Hr : r = Ok tt) by (vm_compute in E; now injection E as <- _).
  subst r.
  destruct (bin_ranges_are_contiguous w w' [3; 1; 2] flat_spectrum flat_bandpass
              eq_refl eq_refl eq_refl) as (ind & indl & dw & H1 & H2 & _ & Hc & _).
  - vm_compute. discriminate.
  - right. exact E.
  - exists w', ind, indl. split; [reflexivity|]. split; [assumption|].
    split; [assumption|]. split; apply Hc; simpl; lia.
Defined.

(** X4. In [observation.py], whatever the bin centers are, a bin whose
    index range is empty ([_indices_last[i] <= _indices[i]]) has the
    width 0 and the flux [nan], the quotient 0/0. *)
Theorem empty_bin_has_zero_width
    {Spectrum Bandpass : Type} {C : Collaborators Spectrum Bandpass}
    (w w' : World Spectrum Bandpass) (bw : array) (c1 : Spectrum) (c2 : Bandpass) :
  binwave (self w) = Some bw ->
  component1 (self w) = Some c1 -> component2 (self w) = Some c2 ->
  composite_wave c1 c2 <> [] ->
  observation.initbinflux w = (Ok tt, w') ->
  exists ind indl bf iw,
    _indices (self w') = Some ind /\ _indices_last (self w') = Some indl /\
    _binflux (self w') = Some bf /\ _intwave (self w') = Some iw /\
    forall i first last,
      ind !! i = Some first -> indl !! i = Some last -> (last <= first)%Z ->
      bf !! i = Some NaN /\ iw !! i = Some 0.
Proof.
  intros Hbw Hc1 Hc2 Hwave Hrun.
  pose proof (initbinflux_ok_length w w' bw Hbw (or_introl Hrun)) as Hn.
  destruct (initbinflux_outcome w bw c1 c2 Hbw Hc1 Hc2 Hwave Hn)
    as (e & spw & ind & indl & bf & iw & _ & _ & Hspw & Hout & Hl1 & _ & _ & _ & He & Hb).
  rewrite Hout in Hrun. injection Hrun as <-. simpl.
  exists ind, indl, bf, iw. do 4 (split; [reflexivity|]).
  intros i first last Hf Hl Hle.
  assert (Hi : (i < length bw)%nat) by (apply lookup_lt_Some in Hf; lia).
  destruct (Hb i Hi) as (H1 & H2 & s & wd & Hbf & Hiw & Hs & Hw & Hempty).
  rewrite H1 in Hf. injection Hf as <-. rewrite H2 in Hl. injection Hl as <-.
  destruct (Hempty ltac:(lia)) as [-> ->].
  split; assumption.
Qed.

Lemma empty_bin_has_zero_width_witness :
  let w := binned flat_spectrum flat_bandpass [1; 1; 2] in
  exists w' bf iw,
    observation.initbinflux w = (Ok tt, w') /\
    _binflux (self w') = Some bf /\ _intwave (self w') = Some iw /\
    bf !! 0%nat = Some NaN /\ iw !! 0%nat = Some 0.
Proof.
  intros w.
  assert (E : observation.initbinflux w = (Ok tt, snd (observation.initbinflux w)))
    by (vm_compute; reflexivity).
  destruct (empty_bin_has_zero_width w (snd (observation.initbinflux w)) [1; 1; 2]
              flat_spectrum flat_bandpass eq_refl eq_refl eq_refl)
    as (ind & indl & bf & iw & H1 & H2 & H3 & H4 & H).
  - vm_compute. discriminate.
  - exact E.
  - vm_compute in H1. injection H1 as <-. vm_compute in H2. injection H2 as <-.
    destruct (H 0%nat 0%Z 0%Z eq_refl eq_refl) as [Hn0 Hn1]; [lia|].
    exists (snd (observation.initbinflux w)), bf, iw.
    split; [exact E|]. split; [exact H3|]. split; [exact H4|].
    split; [exact Hn0|exact Hn1].
Defined.

(** X5. In [observation.py] the width stored for a bin is the distance
    between its two endpoints when they are in order, and 0 when they
    are not, whatever the bin centers are. *)
Theorem bin_width_is_edge_difference
    {Spectrum Bandpass : Type} {C : Collaborators Spectrum Bandpass}
    (w w' : World Spectrum Bandpass) (bw : array) (c1 : Spectrum) (c2 : Bandpass) :
  binwave (self w) = Some bw ->
  component1 (self w) = Some c1 -> component2 (self w) = Some c2 ->
  composite_wave c1 c2 <> [] ->
  observation.initbinflux w = (Ok tt, w') ->
  exists e iw,
    compute_endpoints bw = Ok e /\ _intwave (self w') = Some iw /\
    forall i lo hi, e !! i = Some lo -> e !! S i = Some hi ->
      exists wd, iw !! i = Some wd /\
                 (lo <= hi -> wd == hi - lo) /\ (hi <= lo -> wd == 0).
Proof.
  intros Hbw Hc1 Hc2 Hwave Hrun.
  pose proof (initbinflux_ok_length w w' bw Hbw (or_introl Hrun)) as Hn.
  destruct (initbinflux_outcome w bw c1 c2 Hbw Hc1 Hc2 Hwave Hn)
    as (e & spw & ind & indl & bf & iw & He & Hlen & Hspw & Hout & _ & _ & _ & _ & Hedge & Hb).
  rewrite Hout in Hrun. injection Hrun as <-. simpl.
  exists e, iw. split; [exact He|]. split; [reflexivity|].
  intros i lo hi Hlo Hhi.
  assert (Hi : (i < length bw)%nat) by (apply lookup_lt_Some in Hhi; lia).
  assert (Hsinc : increasing spw) by (subst spw; apply union1d_increasing).
  destruct (Hedge i ltac:(lia)) as (v & x & Hv & Hx & Hxv).
  destruct (Hedge (S i) ltac:(lia)) as (v' & y & Hv' & Hy & Hyv).
  rewrite Hlo in Hv. injection Hv as <-. rewrite Hhi in Hv'. injection Hv' as <-.
  destruct (Hb i Hi) as (_ & _ & s & wd & _ & Hiw & _ & Hw & Hempty).
  exists wd. split; [exact Hiw|]. split.
  - intros Hle. rewrite Hw.
    rewrite sum_range_width
      by (apply (increasing_lookup_le spw _ _ x y Hsinc Hx Hy); lra).
    rewrite (nth_lookup_Some _ _ 0 _ Hx), (nth_lookup_Some _ _ 0 _ Hy). lra.
  - intros Hle.
    destruct Hempty as [_ ->]; [|reflexivity].
    apply (increasing_lookup_le spw _ _ y x Hsinc Hy Hx). lra.
Qed.

Lemma bin_width_is_edge_difference_witness :
  let w := binned flat_spectrum flat_bandpass [150; 250; 450] in
  exists iw wd,
    _intwave (self (snd (observation.initbinflux w))) = Some iw /\
    iw !! 1%nat = Some wd /\ wd == 150.
Proof.
  intros w.
  destruct (bin_width_is_edge_difference w (snd (observation.initbinflux w))
              [150; 250; 450] flat_spectrum flat_bandpass eq_refl eq_refl eq_refl)
    as (e & iw & He & Hiw & H).
  - vm_compute. discriminate.
  - vm_compute. reflexivity.
  - vm_compute in He. injection He as <-.
    destruct (H 1%nat _ _ eq_refl eq_refl) as (wd & Hwd & Hle & _).
    exists iw, wd. split; [exact Hiw|]. split; [exact Hwd|].
    rewrite Hle; [reflexivity|]. vm_compute. discriminate.
Defined.

Lemma trapezoid_constant (w f : array) (c : Q) (k : nat) :
  (forall x, x ∈ f -> x == c) -> (S k < length f)%nat ->
  trapezoid w f k == c * width w k.
Proof.
  intros Hc Hk. unfold trapezoid, width.
  destruct (lookup_lt_is_Some_2 f k) as [x Hx]; [lia|].
  destruct (lookup_lt_is_Some_2 f (S k)) as [y Hy]; [lia|].
  rewrite (nth_lookup_Some _ _ 0 _ Hx), (nth_lookup_Some _ _ 0 _ Hy).
  rewrite (Hc x) by (apply list_elem_of_lookup; now exists k).
  rewrite (Hc y) by (apply list_elem_of_lookup; now exists (S k)).
  rewrite half. ring.
Qed.



(** X7. In [observation.py] every bin center is a point of the merged
    grid, and its position follows the computed endpoints of its bin: it
    is at or after the first index of the bin when the lower endpoint is
    not above the center, strictly after it when the endpoint is below
    the center, and likewise before the last index of the bin. *)
Theorem bin_center_is_a_grid_point
    {Spectrum Bandpass : Type} {C : Collaborators Spectrum Bandpass}
    (w w' : World Spectrum Bandpass) (bw : array) (c1 : Spectrum) (c2 : Bandpass) :
  binwave (self w) = Some bw ->
  component1 (self w) = Some c1 -> component2 (self w) = Some c2 ->
  composite_wave c1 c2 <> [] ->
  observation.initbinflux w = (Ok tt, w') ->
  exists e grid spwave ind indl,
    compute_endpoints bw = Ok e /\
    spectrum.MergeWaveSets (composite_wave c1 c2) e = Ok grid /\
    spectrum.MergeWaveSets grid bw = Ok spwave /\
    _indices (self w') = Some ind /\ _indices_last (self w') = Some indl /\
    forall i b lo hi,
      bw !! i = Some b -> e !! i = Some lo -> e !! S i = Some hi ->
      exists first last k z,
        ind !! i = Some (Z.of_nat first) /\ indl !! i = Some (Z.of_nat last) /\
        spwave !! k = Some z /\ z == b /\
        (lo <= b -> (first <= k)%nat) /\ (lo < b -> (first < k)%nat) /\
        (b <= hi -> (k <= last)%nat) /\ (b < hi -> (k < last)%nat).
Proof.
  intros Hbw Hc1 Hc2 Hwave Hrun.
  pose proof (initbinflux_ok_length w w' bw Hbw (or_introl Hrun)) as Hn.
  destruct (initbinflux_outcome w bw c1 c2 Hbw Hc1 Hc2 Hwave Hn)
    as (e & spw & ind & indl & bf & iw & He & Hlen & Hspw & Hout & _ & _ & _ & _ & Hedge & Hb).
  rewrite Hout in Hrun. injection Hrun as <-. simpl.
  assert (He_ne : e <> []) by (destruct e; [simpl in Hlen; lia|discriminate]).
  assert (Hbw_ne : bw <> []) by (destruct bw; [simpl in Hn; lia|discriminate]).
  exists e, (union1d (composite_wave c1 c2) e), spw, ind, indl.
  split; [exact He|]. split; [now apply MergeWaveSets_ok|].
  split.
  { rewrite Hspw. apply MergeWaveSets_ok; [now apply union1d_nonempty|assumption]. }
  do 2 (split; [reflexivity|]).
  intros i b lo hi Hbi Hlo Hhi.
  assert (Hi : (i < length bw)%nat) by (apply lookup_lt_Some in Hbi; lia).
  assert (Hsinc : increasing spw) by (subst spw; apply union1d_increasing).
  destruct (Hedge i ltac:(lia)) as (lo' & u & Hlo' & Hu & Hulo).
  destruct (Hedge (S i) ltac:(lia)) as (hi' & v & Hhi' & Hv & Hvhi).
  rewrite Hlo in Hlo'. injection Hlo' as <-. rewrite Hhi in Hhi'. injection Hhi' as <-.
  destruct (searchsorted1_occurs spw b Hsinc) as (z & Hz & Hzb).
  { subst spw. apply occurs_union1d. right. exists b. split; [|reflexivity].
    apply list_elem_of_lookup. now exists i. }
  destruct (Hb i Hi) as (Hind & Hindl & _).
  exists (edge_index spw e i), (edge_index spw e (S i)), (searchsorted1 spw b), z.
  split; [exact Hind|]. split; [exact Hindl|]. split; [exact Hz|]. split; [exact Hzb|].
  split; [|split; [|split]]; intros Hle.
  - apply (increasing_lookup_le spw _ _ u z Hsinc Hu Hz). lra.
  - apply (increasing_lookup_lt spw _ _ u z Hsinc Hu Hz). lra.
  - apply (increasing_lookup_le spw _ _ z v Hsinc Hz Hv). lra.
  - apply (increasing_lookup_lt spw _ _ z v Hsinc Hz Hv). lra.
Qed.

Lemma bin_center_is_a_grid_point_witness :
  let w := binned flat_spectrum flat_bandpass [150; 250; 350; 450] in
  exists ind indl first last,
    _indices (self (snd (observation.initbinflux w))) = Some ind /\
    _indices_last (self (snd (observation.initbinflux w))) = Some indl /\
    ind !! 0%nat = Some (Z.of_nat first) /\ indl !! 0%nat = Some (Z.of_nat last) /\
    (first + 2 <= last)%nat.
Proof.
  intros w.
  destruct (bin_center_is_a_grid_point w (snd (observation.initbinflux w))
              [150; 250; 350; 450] flat_spectrum flat_bandpass
              eq_refl eq_refl eq_refl)
    as (e & g & spw & ind & indl & He & _ & _ & Hi & Hil & H).
  - vm_compute. discriminate.
  - vm_compute. reflexivity.
  - vm_compute in He. injection He as <-.
    destruct (H 0%nat 150 _ _ eq_refl eq_refl eq_refl)
      as (first & last & k & z & H1 & H2 & _ & _ & _ & Hlo & _ & Hhi).
    exists ind, indl, first, last.
    split; [exact Hi|]. split; [exact Hil|]. split; [exact H1|]. split; [exact H2|].
    assert (first < k)%nat by (apply Hlo; vm_compute; reflexivity).
    assert (k < last)%nat by (apply Hhi; vm_compute; reflexivity).
    lia.
Defined.

(** X9. In [newobservation.py], whatever the bin centers are, the flux of
    bin [i] is the trapezoid sum of the evaluated flux over the grid
    intervals [_indices[i], _indices_last[i]); it is 0 when that range is
    empty. *)
Theorem raw_sum_bin_is_trapezoid_sum
    {Spectrum Bandpass : Type} {C : Collaborators Spectrum Bandpass}
    (w w' : World Spectrum Bandpass) (bw : array) (c1 : Spectrum) (c2 : Bandpass) :
  binwave (self w) = Some bw ->
  component1 (self w) = Some c1 -> component2 (self w) = Some c2 ->
  composite_wave c1 c2 <> [] ->
  newobservation.initbinflux w = (Ok tt, w') ->
  exists e spwave ind indl bf,
    compute_endpoints bw = Ok e /\
    spectrum.MergeWaveSets (composite_wave c1 c2) e = Ok spwave /\
    _indices (self w') = Some ind /\ _indices_last (self w') = Some indl /\
    _binflux (self w') = Some bf /\
    forall i first last,
      ind !! i = Some first -> indl !! i = Some last ->
      exists q,
        bf !! i = Some (Finite q) /\
        q == sum_range (trapezoid spwave (composite_call c1 c2 spwave))
                       (Z.to_nat first) (Z.to_nat last) /\
        ((last <= first)%Z -> q == 0).
Proof.
  intros Hbw Hc1 Hc2 Hwave Hrun.
  pose proof (initbinflux_ok_length w w' bw Hbw (or_intror Hrun)) as Hn.
  destruct (new_initbinflux_outcome w bw c1 c2 Hbw Hc1 Hc2 Hwave Hn)
    as (e & spw & ind & indl & bf & He & Hlen & Hspw & Hout & Hl1 & _ & _ & Hedge & Hb).
  rewrite Hout in Hrun. injection Hrun as <-. simpl.
  assert (He_ne : e <> []) by (destruct e; [simpl in Hlen; lia|discriminate]).
  exists e, spw, ind, indl, bf.
  split; [exact He|]. split; [rewrite Hspw; now apply MergeWaveSets_ok|].
  do 3 (split; [reflexivity|]).
  intros i first last Hf Hl.
  assert (Hi : (i < length bw)%nat) by (apply lookup_lt_Some in Hf; lia).
  destruct (Hb i Hi) as (H1 & H2 & s & Hbf & Hs).
  rewrite H1 in Hf. injection Hf as <-. rewrite H2 in Hl. injection Hl as <-.
  exists s. rewrite !Nat2Z.id. split; [exact Hbf|]. split; [exact Hs|].
  intros Hle. rewrite Hs. rewrite sum_range_empty by lia. reflexivity.
Qed.

Lemma raw_sum_bin_is_trapezoid_sum_witness :
  let w := binned flat_spectrum flat_bandpass [3; 1; 2] in
  exists bf q,
    _binflux (self (snd (newobservation.initbinflux w))) = Some bf /\
    bf !! 0%nat = Some (Finite q) /\ q == 0.
Proof.
  intros w.
  destruct (raw_sum_bin_is_trapezoid_sum w (snd (newobservation.initbinflux w))
              [3; 1; 2] flat_spectrum flat_bandpass eq_refl eq_refl eq_refl)
    as (e & spw & ind & indl & bf & _ & _ & Hi & Hil & Hbf & H).
  - vm_compute. discriminate.
  - vm_compute. reflexivity.
  - vm_compute in Hi. injection Hi as <-. vm_compute in Hil. injection Hil as <-.
    destruct (H 0%nat _ _ eq_refl eq_refl) as (q & Hq & _ & Hz).
    exists bf, q. split; [exact Hbf|]. split; [exact Hq|]. apply Hz. lia.
Defined.

(** X10. In [newobservation.py], when the composite evaluates to one
    value [c] at every wavelength, the flux of a bin is [c] times the
    distance between its endpoints when they are in order, and 0 when
    they are not. *)
Theorem raw_sum_of_flat_flux
    {Spectrum Bandpass : Type} {C : Collaborators Spectrum Bandpass}
    (w w' : World Spectrum Bandpass) (bw : array) (c1 : Spectrum) (c2 : Bandpass)
    (c : Q) :
  binwave (self w) = Some bw ->
  component1 (self w) = Some c1 -> component2 (self w) = Some c2 ->
  composite_wave c1 c2 <> [] ->
  (forall ws x, x ∈ composite_call c1 c2 ws -> x == c) ->
  newobservation.initbinflux w = (Ok tt, w') ->
  exists e bf,
    compute_endpoints bw = Ok e /\ _binflux (self w') = Some bf /\
    forall i lo hi, e !! i = Some lo -> e !! S i = Some hi ->
      exists q, bf !! i = Some (Finite q) /\
                (lo <= hi -> q == c * (hi - lo)) /\ (hi <= lo -> q == 0).
Proof.
  intros Hbw Hc1 Hc2 Hwave Hflat Hrun.
  pose proof (initbinflux_ok_length w w' bw Hbw (or_intror Hrun)) as Hn.
  destruct (new_initbinflux_outcome w bw c1 c2 Hbw Hc1 Hc2 Hwave Hn)
    as (e & spw & ind & indl & bf & He & Hlen & Hspw & Hout & _ & _ & _ & Hedge & Hb).
  rewrite Hout in Hrun. injection Hrun as <-. simpl.
  exists e, bf. split; [exact He|]. split; [reflexivity|].
  intros i lo hi Hlo Hhi.
  assert (Hi : (i < length bw)%nat) by (apply lookup_lt_Some in Hhi; lia).
  assert (Hsinc : increasing spw) by (subst spw; apply union1d_increasing).
  destruct (Hedge i ltac:(lia)) as (v & x & Hv & Hx & Hxv).
  destruct (Hedge (S i) ltac:(lia)) as (v' & y & Hv' & Hy & Hyv).
  rewrite Hlo in Hv. injection Hv as <-. rewrite Hhi in Hv'. injection Hv' as <-.
  destruct (Hb i Hi) as (_ & _ & s & Hbf & Hs).
  exists s. split; [exact Hbf|]. split.
  - intros Hle.
    assert (Hfl : (edge_index spw e i <= edge_index spw e (S i))%nat)
      by (apply (increasing_lookup_le spw _ _ x y Hsinc Hx Hy); lra).
    rewrite Hs. rewrite (sum_range_ext _ (fun k => c * width spw k)).
    + rewrite sum_range_scale, sum_range_width by assumption.
      rewrite (nth_lookup_Some _ _ 0 _ Hx), (nth_lookup_Some _ _ 0 _ Hy).
      rewrite Hxv, Hyv. reflexivity.
    + intros k Hk. apply trapezoid_constant; [apply Hflat|].
      rewrite composite_call_length. apply lookup_lt_Some in Hy. lia.
  - intros Hle. rewrite Hs. rewrite sum_range_empty; [reflexivity|].
    apply (increasing_lookup_le spw _ _ y x Hsinc Hy Hx). lra.
Qed.

Lemma raw_sum_of_flat_flux_witness :
  let w := binned flat_spectrum flat_bandpass [150; 250; 450] in
  exists bf q,
    _binflux (self (snd (newobservation.initbinflux w))) = Some bf /\
    bf !! 1%nat = Some (Finite q) /\ q == 300.
Proof.
  intros w.
  destruct (raw_sum_of_flat_flux w (snd (newobservation.initbinflux w))
              [150; 250; 450] flat_spectrum flat_bandpass 2 eq_refl eq_refl eq_refl)
    as (e & bf & He & Hbf & H).
  - vm_compute. discriminate.
  - intros ws x Hx. simpl in Hx. apply list_elem_of_fmap in Hx as (y & -> & _).
    reflexivity.
  - vm_compute. reflexivity.
  - vm_compute in He. injection He as <-.
    destruct (H 1%nat _ _ eq_refl eq_refl) as (q & Hq & Hle & _).
    exists bf, q. split; [exact Hbf|]. split; [exact Hq|].
    rewrite Hle; [reflexivity|]. vm_compute. discriminate.
Defined.

(** X11. The indices that [N.searchsorted] gives to two consecutive bin
    edges in the grid of [newobservation.py] are ordered as the computed
    edges are, whatever the bin centers: the index range of a bin is not
    empty exactly when its lower endpoint is below its upper endpoint. *)
Theorem edge_indices_follow_edges (wave bw e spwave : array) :
  compute_endpoints bw = Ok e ->
  spectrum.MergeWaveSets wave e = Ok spwave ->
  forall i lo hi a b,
    e !! i = Some lo -> e !! S i = Some hi ->
    searchsorted spwave e !! i = Some a -> searchsorted spwave e !! S i = Some b ->
    (lo < hi -> (a < b)%Z) /\ (lo == hi -> a = b) /\ (hi < lo -> (b < a)%Z).
Proof.
  intros He Hs i lo hi a b Hlo Hhi Ha Hb.
  pose proof (MergeWaveSets_inv _ _ _ Hs) as Hspw.
  assert (Hsinc : increasing spwave) by (subst spwave; apply union1d_increasing).
  assert (Hsub : forall v, occurs v e -> occurs v spwave).
  { intros v Hv. subst spwave. rewrite occurs_union1d. tauto. }
  assert (Hi : (S i < length e)%nat) by (now apply lookup_lt_Some in Hhi).
  destruct (edge_index_found spwave e i Hsinc Hsub ltac:(lia))
    as (lo' & x & Hlo' & Hx & Hxlo & Hi1).
  destruct (edge_index_found spwave e (S i) Hsinc Hsub Hi)
    as (hi' & y & Hhi' & Hy & Hyhi & Hi2).
  rewrite Hlo in Hlo'. injection Hlo' as <-. rewrite Hhi in Hhi'. injection Hhi' as <-.
  rewrite Hi1 in Ha. injection Ha as <-. rewrite Hi2 in Hb. injection Hb as <-.
  split; [|split]; intros Hc.
  - assert (edge_index spwave e i < edge_index spwave e (S i))%nat; [|lia].
    apply (increasing_lookup_lt spwave _ _ x y Hsinc Hx Hy). lra.
  - assert (edge_index spwave e i <= edge_index spwave e (S i))%nat
      by (apply (increasing_lookup_le spwave _ _ x y Hsinc Hx Hy); lra).
    assert (edge_index spwave e (S i) <= edge_index spwave e i)%nat
      by (apply (increasing_lookup_le spwave _ _ y x Hsinc Hy Hx); lra).
    f_equal. lia.
  - assert (edge_index spwave e (S i) < edge_index spwave e i)%nat; [|lia].
    apply (increasing_lookup_lt spwave _ _ y x Hsinc Hy Hx). lra.
Qed.

Lemma edge_indices_follow_edges_witness :
  searchsorted scenario_grid scenario_endpoints !! 0%nat = Some 0%Z /\
  searchsorted scenario_grid scenario_endpoints !! 1%nat = Some 1%Z /\
  (0 < 1)%Z.
Proof.
  split; [reflexivity|]. split; [reflexivity|].
  destruct (edge_indices_follow_edges
              [100; 200; 300; 400; 500] [150; 250; 350; 450]
              scenario_endpoints scenario_grid eq_refl eq_refl
              0%nat _ _ 0%Z 1%Z eq_refl eq_refl eq_refl eq_refl) as [H _].
  apply H. vm_compute. reflexivity.
Defined.

(** ** Validation of the overlap and construction *)

(** X12. [validate_overlap] prints nothing and changes no attribute
    other than [spectrum]; without a force policy, and whenever it
    raises, it leaves the instance exactly as it was; when it returns,
    [spectrum] is still set. *)
Theorem validate_overlap_changes_only_spectrum
    {Spectrum Bandpass : Type} {C : Collaborators Spectrum Bandpass}
    (w : World Spectrum Bandpass) (s : Spectrum) (b : Bandpass)
    (force : option string) :
  spectrum (self w) = Some s -> bandpass (self w) = Some b ->
  let r := observation.validate_overlap force w in
  stdout (snd r) = stdout w /\
  bandpass (self (snd r)) = bandpass (self w) /\
  component1 (self (snd r)) = component1 (self w) /\
  component2 (self (snd r)) = component2 (self w) /\
  binwave (self (snd r)) = binwave (self w) /\
  _indices (self (snd r)) = _indices (self w) /\
  _indices_last (self (snd r)) = _indices_last (self w) /\
  _deltaw (self (snd r)) = _deltaw (self w) /\
  _binflux (self (snd r)) = _binflux (self w) /\
  _intwave (self (snd r)) = _intwave (self w) /\
  (fst r <> Ok tt -> snd r = w) /\
  (force = None -> snd r = w) /\
  (fst r = Ok tt -> exists s', spectrum (self (snd r)) = Some s').
Proof.
  intros Hs Hb.
  destruct w as [[sp bp oc1 oc2 obw i0 il0 dw0 bf0 iw0] out]. simpl in Hs, Hb.
  subst sp bp.
  unfold observation.validate_overlap, bind, getattr, lift, modify, ret, raise.
  destruct force as [force|].
  - destruct (String.eqb (lower force) "taper"); cbn.
    + destruct (taper s) as [s'|e] eqn:Ht; cbn.
      * repeat split; try reflexivity; try discriminate.
        intros H; now contradiction H. intros _. now exists s'.
      * assert (Hfail : forall e' : exn,
                  let r := (Raise e' : result unit,
                            mkWorld (mkObservation (Some s) (Some b) oc1 oc2 obw
                                       i0 il0 dw0 bf0 iw0) out) in
                  stdout (snd r) = out /\ bandpass (self (snd r)) = Some b /\
                  component1 (self (snd r)) = oc1 /\ component2 (self (snd r)) = oc2 /\
                  binwave (self (snd r)) = obw /\ _indices (self (snd r)) = i0 /\
                  _indices_last (self (snd r)) = il0 /\ _deltaw (self (snd r)) = dw0 /\
                  _binflux (self (snd r)) = bf0 /\ _intwave (self (snd r)) = iw0 /\
                  (fst r <> Ok tt ->
                   snd r = mkWorld (mkObservation (Some s) (Some b) oc1 oc2 obw
                                      i0 il0 dw0 bf0 iw0) out) /\
                  (Some force = None ->
                   snd r = mkWorld (mkObservation (Some s) (Some b) oc1 oc2 obw
                                      i0 il0 dw0 bf0 iw0) out) /\
                  (fst r = Ok tt -> exists s', spectrum (self (snd r)) = Some s')).
        { intros e'. cbn. repeat split; try reflexivity; discriminate. }
        destruct e; cbn; try apply Hfail.
        destruct (tabulate s) as [t|e']; cbn; [|apply Hfail].
        destruct (taper t) as [s'|e']; cbn; [|apply Hfail].
        repeat split; try reflexivity; try discriminate.
        intros H; now contradiction H. intros _. now exists s'.
    + destruct (startswith (lower force) "extrap"); cbn;
        repeat split; try reflexivity; try discriminate.
      * intros _. now exists s.
  - cbn. destruct (String.eqb (check_overlap s b) "full"); cbn.
    { repeat split; try reflexivity. intros _. now exists s. }
    destruct (String.eqb (check_overlap s b) "partial"); cbn.
    { repeat split; try reflexivity. discriminate. }
    destruct (String.eqb (check_overlap s b) "none"); cbn.
    { repeat split; try reflexivity. discriminate. }
    repeat split; try reflexivity. intros _. now exists s.
Qed.

Lemma validate_overlap_changes_only_spectrum_witness :
  let w := started blue_spectrum red_bandpass in
  bandpass (self (snd (observation.validate_overlap (Some "taper"%string) w)))
  = Some red_bandpass /\
  snd (observation.validate_overlap None w) = w.
Proof.
  intros w.
  destruct (validate_overlap_changes_only_spectrum w blue_spectrum red_bandpass
              (Some "taper"%string) eq_refl eq_refl) as (_ & Hb & _).
  destruct (validate_overlap_changes_only_spectrum w blue_spectrum red_bandpass
              None eq_refl eq_refl) as (_ & _ & _ & _ & _ & _ & _ & _ & _ & _ & _ & Hn & _).
  split; [exact Hb|]. apply Hn. reflexivity.
Defined.

(** X13. Under the policy 'taper' only an [AttributeError] of
    [spectrum.taper()] is caught: any other error of [taper], an error
    of [tabulate()], and an error of the [taper] of the tabulated
    spectrum (an [AttributeError] too) reach the caller, and the
    spectrum is left as it was. *)
Theorem taper_errors_propagate
    {Spectrum Bandpass : Type} {C : Collaborators Spectrum Bandpass}
    (w : World Spectrum Bandpass) (s : Spectrum) (force : string) (e : exn) :
  spectrum (self w) = Some s -> lower force = "taper"%string ->
  (taper s = Raise e -> (forall m, e <> AttributeError m) ->
   observation.validate_overlap (Some force) w = (Raise e, w)) /\
  (forall m, taper s = Raise (AttributeError m) -> tabulate s = Raise e ->
   observation.validate_overlap (Some force) w = (Raise e, w)) /\
  (forall m t, taper s = Raise (AttributeError m) -> tabulate s = Ok t ->
   taper t = Raise e ->
   observation.validate_overlap (Some force) w = (Raise e, w)).
Proof.
  intros Hs Hf.
  destruct w as [[sp bp oc1 oc2 obw i0 il0 dw0 bf0 iw0] out]. simpl in Hs. subst sp.
  unfold observation.validate_overlap, bind, getattr, lift, modify, raise.
  rewrite Hf. cbn. split; [|split].
  - intros Ht Hne. rewrite Ht. destruct e; try reflexivity.
    now contradiction (Hne msg).
  - intros m Ht Htab. rewrite Ht. cbn. rewrite Htab. reflexivity.
  - intros m t Ht Htab Ht2. rewrite Ht. cbn. rewrite Htab. cbn. rewrite Ht2. reflexivity.
Qed.

Lemma taper_errors_propagate_witness :
  let C := scripted_collaborators "none" (Raise (ValueError "no taper"))
             (Ok tt) (Ok None) [1; 2] in
  observation.validate_overlap (C := C) (Some "TAPER"%string) (started tt tt)
  = (Raise (ValueError "no taper"), started tt tt).
Proof.
  intros C.
  apply (taper_errors_propagate (C := C) (started tt tt) tt "TAPER" (ValueError "no taper")
           eq_refl eq_refl).
  - reflexivity.
  - discriminate.
Defined.

(** X14. With no force policy and an overlap status 'partial' or 'none',
    the constructor of [observation.py] raises [ValueError] before any
    binning, whatever the binset is (absent, or too short for the
    endpoints): [bandWave()] is not asked, nothing is printed, and only
    [spectrum] and [bandpass] are set. *)
Theorem overlap_error_precedes_binning
    {Spectrum Bandpass : Type} {C : Collaborators Spectrum Bandpass}
    (spec : Spectrum) (band : Bandpass) (binset : option array) :
  (check_overlap spec band = "partial" \/ check_overlap spec band = "none")%string ->
  exists msg,
    observation.construct spec band binset None
    = (Raise (ValueError msg), started spec band).
Proof.
  intros Hstat.
  assert (Hv : exists msg, observation.validate_overlap None (started spec band)
                           = (Raise (ValueError msg), started spec band)).
  { unfold observation.validate_overlap, bind, getattr, ret, raise. cbn.
    destruct Hstat as [-> | ->]; cbn; eexists; reflexivity. }
  destruct Hv as [msg Hv]. exists msg.
  now apply construct_when_validation_raises.
Qed.

Lemma overlap_error_precedes_binning_witness :
  exists msg,
    observation.construct blue_spectrum red_bandpass (Some [7]) None
    = (Raise (ValueError msg), started blue_spectrum red_bandpass).
Proof.
  apply (overlap_error_precedes_binning blue_spectrum red_bandpass (Some [7])).
  right. reflexivity.
Defined.

(** X15. The constructor of [observation.py] returns, for at least two
    bin centers and a natural waveset that is not empty, when no policy
    is given and the overlap status is neither 'partial' nor 'none', and
    also, whatever the overlap status is, when the policy in lower case
    starts with 'extrap'.  The instance then holds the spectrum, the
    bandpass and the bin centers it was given, one flux per bin center,
    and nothing was printed. *)
Theorem observation_constructor_returns
    {Spectrum Bandpass : Type} {C : Collaborators Spectrum Bandpass}
    (spec : Spectrum) (band : Bandpass) (bw : array) (force : option string) :
  (force = None /\
   ~ (check_overlap spec band = "partial" \/ check_overlap spec band = "none")%string) \/
  (exists f, force = Some f /\ startswith (lower f) "extrap" = true) ->
  (2 <= length bw)%nat -> composite_wave spec band <> [] ->
  exists w' bf,
    observation.construct spec band (Some bw) force = (Ok tt, w') /\
    spectrum (self w') = Some spec /\ bandpass (self w') = Some band /\
    component1 (self w') = Some spec /\ component2 (self w') = Some band /\
    binwave (self w') = Some bw /\ stdout w' = [] /\
    _binflux (self w') = Some bf /\ length bf = length bw.
Proof.
  intros Hforce Hn Hwave.
  assert (Hv : observation.validate_overlap force (started spec band)
               = (Ok tt, mkWorld (set_spectrum spec (self (started spec band))) [])).
  { destruct Hforce as [[-> Hstat]|(f & -> & Hx)].
    - unfold observation.validate_overlap, bind, getattr, ret, raise. cbn.
      destruct (String.eqb_spec (check_overlap spec band) "full"); [reflexivity|].
      destruct (String.eqb_spec (check_overlap spec band) "partial"); [exfalso; auto|].
      destruct (String.eqb_spec (check_overlap spec band) "none"); [exfalso; auto|].
      reflexivity.
    - unfold observation.validate_overlap.
      destruct (String.eqb_spec (lower f) "taper") as [E|E].
      + rewrite E in Hx. discriminate.
      + rewrite Hx. reflexivity. }
  rewrite (construct_after_validation spec spec band (Some bw) force Hv).
  change ((observation.initbinset (Some bw) >> observation.initbinflux)
            (mkWorld (mkObservation (Some spec) (Some band) (Some spec) (Some band)
                        None None None None None None) []))
    with (observation.initbinflux
            (mkWorld (mkObservation (Some spec) (Some band) (Some spec) (Some band)
                        (Some bw) None None None None None) [])).
  destruct (initbinflux_outcome
              (mkWorld (mkObservation (Some spec) (Some band) (Some spec) (Some band)
                          (Some bw) None None None None None) [])
              bw spec band eq_refl eq_refl eq_refl Hwave Hn)
    as (e & spw & ind & indl & bf & iw & _ & _ & _ & Hout & _ & _ & Hlbf & _).
  rewrite Hout. cbn. eexists _, bf. split; [reflexivity|]. cbn.
  repeat split; try reflexivity. exact Hlbf.
Qed.

Lemma observation_constructor_returns_witness :
  exists w' bf,
    observation.construct blue_spectrum red_bandpass (Some [320; 380])
                          (Some "Extrapolate"%string) = (Ok tt, w') /\
    _binflux (self w') = Some bf /\ length bf = 2%nat.
Proof.
  destruct (observation_constructor_returns blue_spectrum red_bandpass [320; 380]
              (Some "Extrapolate"%string)) as (w' & bf & H & _ & _ & _ & _ & _ & _ & Hbf & Hl).
  - right. eexists. split; reflexivity.
  - simpl. lia.
  - vm_compute. discriminate.
  - exists w', bf. repeat split; assumption.
Defined.

(** X16. Constructing with the policy 'taper' is constructing, with no
    check of the overlap, from the tapered spectrum: the composite, the
    binning and the stored [spectrum] are those of [spectrum.taper()]. *)
Theorem taper_then_construct
    {Spectrum Bandpass : Type} {C : Collaborators Spectrum Bandpass}
    (spec s' : Spectrum) (band : Bandpass) (binset : option array) (force : string) :
  lower force = "taper"%string -> taper spec = Ok s' ->
  observation.construct spec band binset (Some force)
  = observation.construct s' band binset (Some "extrap"%string).
Proof.
  intros Hf Ht.
  rewrite (construct_after_validation spec s' band binset (Some force)).
  - rewrite (construct_after_validation s' s' band binset (Some "extrap"%string));
      reflexivity.
  - unfold observation.validate_overlap, bind, getattr, lift, modify.
    rewrite Hf. cbn. rewrite Ht. reflexivity.
Qed.

Lemma taper_then_construct_witness :
  exists s',
    ts_tapered s' = true /\
    observation.construct blue_spectrum red_bandpass (Some [320; 380]) (Some "taper"%string)
    = observation.construct s' red_bandpass (Some [320; 380]) (Some "extrap"%string).
Proof.
  eexists. split; [|apply taper_then_construct; reflexivity]. reflexivity.
Defined.

(** X17. The constructor of [newobservation.py] never looks at the
    overlap: for at least two bin centers and a natural waveset that is
    not empty it returns, with the spectrum, the bandpass and the bin
    centers it was given, one flux per bin center, and no output. *)
Theorem new_constructor_returns
    {Spectrum Bandpass : Type} {C : Collaborators Spectrum Bandpass}
    (spec : Spectrum) (band : Bandpass) (bw : array) :
  (2 <= length bw)%nat -> composite_wave spec band <> [] ->
  exists w' bf,
    newobservation.construct spec band (Some bw) = (Ok tt, w') /\
    spectrum (self w') = Some spec /\ bandpass (self w') = Some band /\
    binwave (self w') = Some bw /\ stdout w' = [] /\
    _binflux (self w') = Some bf /\ length bf = length bw /\
    _intwave (self w') = None.
Proof.
  intros Hn Hwave.
  change (newobservation.construct spec band (Some bw))
    with (newobservation.initbinflux
            (mkWorld (mkObservation (Some spec) (Some band) (Some spec) (Some band)
                        (Some bw) None None None None None) [])).
  destruct (new_initbinflux_outcome
              (mkWorld (mkObservation (Some spec) (Some band) (Some spec) (Some band)
                          (Some bw) None None None None None) [])
              bw spec band eq_refl eq_refl eq_refl Hwave Hn)
    as (e & spw & ind & indl & bf & _ & _ & _ & Hout & _ & _ & Hlbf & _).
  rewrite Hout. cbn. eexists _, bf. split; [reflexivity|]. cbn.
  repeat split; try reflexivity. exact Hlbf.
Qed.

Lemma new_constructor_returns_witness :
  exists w' bf,
    newobservation.construct blue_spectrum red_bandpass (Some [320; 380]) = (Ok tt, w') /\
    _binflux (self w') = Some bf /\ length bf = 2%nat.
Proof.
  destruct (new_constructor_returns blue_spectrum red_bandpass [320; 380])
    as (w' & bf & H & _ & _ & _ & _ & Hbf & Hl & _).
  - simpl. lia.
  - vm_compute. discriminate.
  - exists w', bf. repeat split; assumption.
Defined.

(** ** The bin centers of the bandpass *)

Section NativeBinset.

Context {Spectrum Bandpass : Type} {C : Collaborators Spectrum Bandpass}.

Lemma initbinset_fallback (w : World Spectrum Bandpass) (s : Spectrum) (b : Bandpass) :
  spectrum (self w) = Some s -> bandpass (self w) = Some b ->
  (bandWave b = Ok None \/
   (exists m, bandWave b = Raise (KeyError m)) \/
   (exists m, bandWave b = Raise (AttributeError m))) ->
  observation.initbinset None w
  = (Ok tt, mkWorld (set_binwave (Some (spectrum_wave s)) (self w))
                    (stdout w ++ [advisory b])).
Proof.
  intros Hs Hb Hband.
  destruct w as [[sp bp oc1 oc2 obw i0 il0 dw0 bf0 iw0] out]. simpl in Hs, Hb.
  subst sp bp.
  unfold observation.initbinset, bind, getattr, modify, print, ret. simpl.
  destruct Hband as [H|[[m H]|[m H]]]; rewrite H; reflexivity.
Qed.

End NativeBinset.

(** X18. When the bandpass has a bin grid of its own ([bandWave()]
    returns an array) and no binset is given, [initbinset] stores that
    array as [binwave], in both modules, and prints nothing. *)
Theorem native_binset_is_used
    {Spectrum Bandpass : Type} {C : Collaborators Spectrum Bandpass}
    (w : World Spectrum Bandpass) (b : Bandpass) (a : array) :
  bandpass (self w) = Some b -> bandWave b = Ok (Some a) ->
  observation.initbinset None w
  = (Ok tt, mkWorld (set_binwave (Some a) (self w)) (stdout w)) /\
  newobservation.initbinset None w
  = (Ok tt, mkWorld (set_binwave (Some a) (self w)) (stdout w)).
Proof.
  intros Hb Hband.
  destruct w as [[sp bp oc1 oc2 obw i0 il0 dw0 bf0 iw0] out]. simpl in Hb. subst bp.
  unfold observation.initbinset, newobservation.initbinset, bind, getattr, modify, ret.
  simpl. rewrite Hband. split; reflexivity.
Qed.

Lemma native_binset_is_used_witness :
  let C := scripted_collaborators "full" (Ok tt) (Ok tt) (Ok (Some [5; 6; 7])) [1; 2] in
  binwave (self (snd (observation.initbinset (C := C) None (started tt tt))))
  = Some [5; 6; 7].
Proof.
  intros C.
  destruct (native_binset_is_used (C := C) (started tt tt) tt [5; 6; 7] eq_refl eq_refl)
    as [H _].
  rewrite H. reflexivity.
Defined.

(** X19. In [newobservation.py], when no binset is given and
    [bandWave()] raises [KeyError] or [AttributeError], [initbinset]
    prints that a binset must be provided and raises the same error
    again; [binwave] is not set and the constructor fails with that
    error. *)
Theorem new_initbinset_raises_again
    {Spectrum Bandpass : Type} {C : Collaborators Spectrum Bandpass}
    (w : World Spectrum Bandpass) (spec : Spectrum) (b : Bandpass) (e : exn) :
  bandpass (self w) = Some b ->
  bandWave b = Raise e ->
  (exists m, e = KeyError m) \/ (exists m, e = AttributeError m) ->
  (exists msg,
     newobservation.initbinset None w
     = (Raise e, mkWorld (self w) (stdout w ++ [msg]))) /\
  fst (newobservation.construct spec b None) = Raise e /\
  binwave (self (snd (newobservation.construct spec b None))) = None.
Proof.
  intros Hb Hband He.
  destruct w as [[sp bp oc1 oc2 obw i0 il0 dw0 bf0 iw0] out]. simpl in Hb. subst bp.
  unfold newobservation.construct, newobservation.__init__,
    newobservation.initbinset, bind, getattr, modify, print, raise, ret. simpl.
  rewrite Hband.
  destruct He as [[m ->]|[m ->]]; (split; [eexists; reflexivity|split; reflexivity]).
Qed.

Lemma new_initbinset_raises_again_witness :
  let C := scripted_collaborators "full" (Ok tt) (Ok tt)
             (Raise (KeyError "obsmode")) [1; 2] in
  fst (newobservation.construct (C := C) tt tt None) = Raise (KeyError "obsmode").
Proof.
  intros C.
  destruct (new_initbinset_raises_again (C := C) (started tt tt) tt tt
              (KeyError "obsmode") eq_refl eq_refl) as (_ & H & _).
  - left. eexists. reflexivity.
  - exact H.
Defined.

(** X20. An error of [bandWave()] other than [KeyError] and
    [AttributeError] is not handled by [initbinset]: in both modules it
    reaches the caller, nothing is printed and the instance is left as
    it was. *)
Theorem initbinset_passes_other_errors
    {Spectrum Bandpass : Type} {C : Collaborators Spectrum Bandpass}
    (w : World Spectrum Bandpass) (b : Bandpass) (e : exn) :
  bandpass (self w) = Some b ->
  bandWave b = Raise e ->
  (forall m, e <> KeyError m) -> (forall m, e <> AttributeError m) ->
  observation.initbinset None w = (Raise e, w) /\
  newobservation.initbinset None w = (Raise e, w).
Proof.
  intros Hb Hband Hk Ha.
  destruct w as [[sp bp oc1 oc2 obw i0 il0 dw0 bf0 iw0] out]. simpl in Hb. subst bp.
  unfold observation.initbinset, newobservation.initbinset, bind, getattr, modify,
    print, raise, ret. simpl.
  rewrite Hband.
  destruct e; try (split; reflexivity).
  - now contradiction (Hk msg).
  - now contradiction (Ha msg).
Qed.

Lemma initbinset_passes_other_errors_witness :
  let C := scripted_collaborators "full" (Ok tt) (Ok tt)
             (Raise (ValueError "bad table")) [1; 2] in
  observation.initbinset (C := C) None (started tt tt)
  = (Raise (ValueError "bad table"), started tt tt).
Proof.
  intros C.
  apply (initbinset_passes_other_errors (C := C) (started tt tt) tt
           (ValueError "bad table") eq_refl eq_refl); discriminate.
Defined.

(** X21. When no binset is given and the bandpass has no bin grid, the
    constructor of [observation.py] (the overlap being accepted) bins the
    observation on the waveset of the spectrum, provided it has at least
    two points: it returns, [binwave] is [spectrum.wave], and the only
    output is the advisory message. *)
Theorem constructor_falls_back_to_spectrum
    {Spectrum Bandpass : Type} {C : Collaborators Spectrum Bandpass}
    (spec : Spectrum) (band : Bandpass) (force : option string) :
  (force = None /\
   ~ (check_overlap spec band = "partial" \/ check_overlap spec band = "none")%string) \/
  (exists f, force = Some f /\ startswith (lower f) "extrap" = true) ->
  (bandWave band = Ok None \/
   (exists m, bandWave band = Raise (KeyError m)) \/
   (exists m, bandWave band = Raise (AttributeError m))) ->
  (2 <= length (spectrum_wave spec))%nat -> composite_wave spec band <> [] ->
  exists w' bf,
    observation.construct spec band None force = (Ok tt, w') /\
    binwave (self w') = Some (spectrum_wave spec) /\
    stdout w' = [advisory band] /\
    _binflux (self w') = Some bf /\ length bf = length (spectrum_wave spec).
Proof.
  intros Hforce Hband Hn Hwave.
  assert (Hv : observation.validate_overlap force (started spec band)
               = (Ok tt, mkWorld (set_spectrum spec (self (started spec band))) [])).
  { destruct Hforce as [[-> Hstat]|(f & -> & Hx)].
    - unfold observation.validate_overlap, bind, getattr, ret, raise. cbn.
      destruct (String.eqb_spec (check_overlap spec band) "full"); [reflexivity|].
      destruct (String.eqb_spec (check_overlap spec band) "partial"); [exfalso; auto|].
      destruct (String.eqb_spec (check_overlap spec band) "none"); [exfalso; auto|].
      reflexivity.
    - unfold observation.validate_overlap.
      destruct (String.eqb_spec (lower f) "taper") as [E|E].
      + rewrite E in Hx. discriminate.
      + rewrite Hx. reflexivity. }
  rewrite (construct_after_validation spec spec band None force Hv).
  unfold bind at 1.
  rewrite (initbinset_fallback
             (mkWorld (mkObservation (Some spec) (Some band) (Some spec) (Some band)
                         None None None None None None) [])
             spec band eq_refl eq_refl Hband).
  destruct (initbinflux_outcome
              (mkWorld (mkObservation (Some spec) (Some band) (Some spec) (Some band)
                          (Some (spectrum_wave spec)) None None None None None)
                       [advisory band])
              (spectrum_wave spec) spec band eq_refl eq_refl eq_refl Hwave Hn)
    as (e & spw & ind & indl & bf & iw & _ & _ & _ & Hout & _ & _ & Hlbf & _).
  change (observation.initbinflux _)
    with (observation.initbinflux
            (mkWorld (mkObservation (Some spec) (Some band) (Some spec) (Some band)
                        (Some (spectrum_wave spec)) None None None None None)
                     [advisory band])).
  rewrite Hout. cbn. eexists _, bf. split; [reflexivity|]. cbn.
  repeat split; try reflexivity. exact Hlbf.
Qed.

Lemma constructor_falls_back_to_spectrum_witness :
  exists w',
    observation.construct flat_spectrum flat_bandpass None None = (Ok tt, w') /\
    binwave (self w') = Some [100; 200; 300; 400; 500] /\
    stdout w' = [advisory flat_bandpass].
Proof.
  destruct (constructor_falls_back_to_spectrum flat_spectrum flat_bandpass None)
    as (w' & bf & H & Hb & Ho & _).
  - left. split; [reflexivity|]. intros [H|H]; discriminate.
  - left. reflexivity.
  - simpl. lia.
  - vm_compute. discriminate.
  - exists w'. repeat split; assumption.
Defined.

(** ** The endpoints of any bin centers *)

Lemma endpoints_lookup (bw e : array) :
  compute_endpoints bw = Ok e ->
  (forall b0 b1, bw !! 0%nat = Some b0 -> bw !! 1%nat = Some b1 ->
     e !! 0%nat = Some (b0 - ((b1 + b0) / 2 - b0))) /\
  (forall i x y, bw !! i = Some x -> bw !! S i = Some y ->
     e !! S i = Some ((y + x) / 2)) /\
  (forall bp bl, bw !! (length bw - 2)%nat = Some bp ->
     bw !! (length bw - 1)%nat = Some bl ->
     e !! length bw = Some (bl + (bl - (bl + bp) / 2))).
Proof.
  intros He. destruct (compute_endpoints_length bw e He) as [Hn _].
  destruct (compute_endpoints_ok bw Hn) as (b0 & b1 & bp & bl & H0 & H1 & Hp & Hl & He').
  rewrite He in He'. injection He' as ->.
  split; [|split].
  - intros c0 c1 Hc0 Hc1. rewrite H0 in Hc0. injection Hc0 as <-.
    rewrite H1 in Hc1. injection Hc1 as <-. reflexivity.
  - intros i x y Hx Hy. simpl. rewrite lookup_app_l.
    + now apply lookup_midpoints.
    + rewrite length_midpoints. apply lookup_lt_Some in Hy. lia.
  - intros cp cl Hcp Hcl. rewrite Hp in Hcp. injection Hcp as <-.
    rewrite Hl in Hcl. injection Hcl as <-.
    destruct (length bw) as [|n] eqn:En; [lia|]. simpl.
    rewrite lookup_app_r; rewrite length_midpoints, En; [|lia].
    now replace (n - (S n - 1))%nat with 0%nat by lia.
Qed.

(** X22. Whatever the bin centers are (two or more), the first and the
    last bin are centered: the first bin center is the middle of the
    first two endpoints and the last bin center the middle of the last
    two. *)
Theorem outer_bins_are_centered (bw e : array) :
  compute_endpoints bw = Ok e ->
  (exists b e0 e1, bw !! 0%nat = Some b /\ e !! 0%nat = Some e0 /\ e !! 1%nat = Some e1 /\
                   (e0 + e1) / 2 == b) /\
  (exists b e0 e1, bw !! (length bw - 1)%nat = Some b /\
                   e !! (length bw - 1)%nat = Some e0 /\ e !! length bw = Some e1 /\
                   (e0 + e1) / 2 == b).
Proof.
  intros He. destruct (compute_endpoints_length bw e He) as [Hn _].
  destruct (endpoints_lookup bw e He) as (Hfirst & Hmid & Hlast).
  destruct (lookup_lt_is_Some_2 bw 0) as [b0 H0]; [lia|].
  destruct (lookup_lt_is_Some_2 bw 1) as [b1 H1]; [lia|].
  destruct (lookup_lt_is_Some_2 bw (length bw - 2)) as [bp Hp]; [lia|].
  destruct (lookup_lt_is_Some_2 bw (length bw - 1)) as [bl Hl]; [lia|].
  split.
  - exists b0. do 2 eexists. split; [exact H0|]. split; [exact (Hfirst b0 b1 H0 H1)|].
    split; [exact (Hmid 0%nat b0 b1 H0 H1)|]. rewrite !half. ring.
  - exists bl, ((bl + bp) / 2). eexists. split; [exact Hl|]. split.
    + replace (length bw - 1)%nat with (S (length bw - 2)) by lia.
      apply Hmid; [exact Hp|]. now replace (S (length bw - 2)) with (length bw - 1)%nat by lia.
    + split; [exact (Hlast bp bl Hp Hl)|]. rewrite !half. ring.
Qed.

Lemma outer_bins_are_centered_witness :
  exists e0 e1, scenario_endpoints !! 0%nat = Some e0 /\
                scenario_endpoints !! 1%nat = Some e1 /\ (e0 + e1) / 2 == 150.
Proof.
  destruct (outer_bins_are_centered [150; 250; 350; 450] scenario_endpoints eq_refl)
    as [(b & e0 & e1 & Hb & H0 & H1 & H) _].
  injection Hb as <-. now exists e0, e1.
Defined.

(** X23. For bin centers with one spacing [d] every bin is centered and
    has the width [d]: its endpoints are the center minus and plus half
    the spacing. *)
Theorem uniform_centers_give_uniform_bins (bw e : array) (d : Q) :
  compute_endpoints bw = Ok e ->
  (forall i x y, bw !! i = Some x -> bw !! S i = Some y -> y - x == d) ->
  forall i b, bw !! i = Some b ->
    exists lo hi, e !! i = Some lo /\ e !! S i = Some hi /\
                  lo == b - d / 2 /\ hi == b + d / 2.
Proof.
  intros He Hd i b Hb.
  destruct (compute_endpoints_length bw e He) as [Hn _].
  destruct (endpoints_lookup bw e He) as (Hfirst & Hmid & Hlast).
  assert (Hi : (i < length bw)%nat) by now apply lookup_lt_Some in Hb.
  assert (Hlo : exists lo, e !! i = Some lo /\ lo == b - d / 2).
  { destruct i as [|i].
    - destruct (lookup_lt_is_Some_2 bw 1) as [b1 H1]; [lia|].
      eexists. split; [exact (Hfirst b b1 Hb H1)|].
      pose proof (Hd 0%nat b b1 Hb H1). rewrite !half. lra.
    - destruct (lookup_lt_is_Some_2 bw i) as [a Ha]; [lia|].
      eexists. split; [exact (Hmid i a b Ha Hb)|].
      pose proof (Hd i a b Ha Hb). rewrite !half. lra. }
  assert (Hhi : exists hi, e !! S i = Some hi /\ hi == b + d / 2).
  { destruct (decide (S i = length bw)) as [Hlast'|Hnot].
    - destruct (lookup_lt_is_Some_2 bw (length bw - 2)) as [bp Hp]; [lia|].
      replace i with (length bw - 1)%nat in Hb by lia.
      rewrite Hlast'. eexists. split; [exact (Hlast bp b Hp Hb)|].
      assert (b - bp == d).
      { apply (Hd (length bw - 2)%nat); [exact Hp|].
        now replace (S (length bw - 2)) with (length bw - 1)%nat by lia. }
      rewrite !half. lra.
    - destruct (lookup_lt_is_Some_2 bw (S i)) as [c Hc]; [lia|].
      eexists. split; [exact (Hmid i b c Hb Hc)|].
      pose proof (Hd i b c Hb Hc). rewrite !half. lra. }
  destruct Hlo as (lo & Hlo & Hlov). destruct Hhi as (hi & Hhi & Hhiv).
  now exists lo, hi.
Qed.

Lemma uniform_centers_give_uniform_bins_witness :
  exists lo hi, scenario_endpoints !! 2%nat = Some lo /\
                scenario_endpoints !! 3%nat = Some hi /\
                lo == 350 - 100 / 2 /\ hi == 350 + 100 / 2.
Proof.
  apply (uniform_centers_give_uniform_bins [150; 250; 350; 450] scenario_endpoints 100
           eq_refl) with (i := 2%nat) (b := 350).
  - intros i x y Hx Hy.
    destruct i as [|[|[|[|i]]]]; simpl in Hx, Hy; try discriminate;
      injection Hx as <-; injection Hy as <-; reflexivity.
  - reflexivity.
Defined.

(** X26. Lines 93-97 as the code runs them, in binary64.  With fewer than
    two bin centers they raise [IndexError].  With n >= 2 centers, of any
    values and in any order, the endpoint array has n+1 entries: entry
    i+1 is the float64 midpoint of centers i and i+1, entry 0 is the
    first center minus the float64 difference of the first midpoint and
    the first center, and entry n the last center plus the float64
    difference of the last center and the last midpoint. *)
Theorem endpoints_float64_shape (binwave : list float) :
  ((length binwave < 2)%nat ->
   exists msg, compute_endpoints_float64 binwave = Raise (IndexError msg)) /\
  ((2 <= length binwave)%nat ->
   exists endpoints,
     compute_endpoints_float64 binwave = Ok endpoints /\
     length endpoints = (length binwave + 1)%nat /\
     (forall i x y, binwave !! i = Some x -> binwave !! S i = Some y ->
        endpoints !! S i = Some (PrimFloat.div (PrimFloat.add y x) 2)) /\
     (forall b0 b1, binwave !! 0%nat = Some b0 -> binwave !! 1%nat = Some b1 ->
        endpoints !! 0%nat
        = Some (PrimFloat.sub b0
                  (PrimFloat.sub (PrimFloat.div (PrimFloat.add b1 b0) 2) b0))) /\
     (forall bp bl,
        binwave !! (length binwave - 2)%nat = Some bp ->
        binwave !! (length binwave - 1)%nat = Some bl ->
        endpoints !! length binwave
        = Some (PrimFloat.add bl
                  (PrimFloat.sub bl (PrimFloat.div (PrimFloat.add bl bp) 2))))).
Proof.
  split.
  - intros H. destruct binwave as [|x [|y r]]; [| |simpl in H; lia];
      eexists; reflexivity.
  - intros Hn.
    destruct (lookup_lt_is_Some_2 binwave 0) as [b0 H0]; [lia|].
    destruct (lookup_lt_is_Some_2 binwave 1) as [b1 H1]; [lia|].
    destruct (lookup_lt_is_Some_2 binwave (length binwave - 2)) as [bp Hp]; [lia|].
    destruct (lookup_lt_is_Some_2 binwave (length binwave - 1)) as [bl Hl]; [lia|].
    set (mid := (fun s => PrimFloat.div s 2)
                  <$> zip_with PrimFloat.add (from1 binwave) (upto_last binwave)).
    assert (Hlen : length mid = (length binwave - 1)%nat).
    { unfold mid. now rewrite length_fmap, length_adjacent. }
    assert (Hmid : forall i x y, binwave !! i = Some x -> binwave !! S i = Some y ->
              mid !! i = Some (PrimFloat.div (PrimFloat.add y x) 2)).
    { intros i x y Hx Hy. unfold mid.
      rewrite list_lookup_fmap, (lookup_adjacent PrimFloat.add binwave i x y Hx Hy).
      reflexivity. }
    assert (He : compute_endpoints_float64 binwave
                 = Ok (PrimFloat.sub b0
                         (PrimFloat.sub (PrimFloat.div (PrimFloat.add b1 b0) 2) b0)
                       :: mid ++
                       [PrimFloat.add bl
                          (PrimFloat.sub bl (PrimFloat.div (PrimFloat.add bl bp) 2))])).
    { unfold compute_endpoints_float64. fold mid.
      unfold getitem, getitem_last. rewrite H0, (Hmid 0%nat b0 b1 H0 H1).
      rewrite !last_lookup, Hlen.
      replace (Nat.pred (length binwave)) with (length binwave - 1)%nat by lia.
      rewrite Hl.
      replace (Nat.pred (length binwave - 1)) with (length binwave - 2)%nat by lia.
      rewrite (Hmid (length binwave - 2)%nat bp bl Hp).
      - reflexivity.
      - now replace (S (length binwave - 2)) with (length binwave - 1)%nat by lia. }
    eexists. split; [exact He|].
    split; [|split; [|split]].
    + simpl. rewrite length_app, Hlen. simpl. lia.
    + intros i x y Hx Hy. simpl. rewrite lookup_app_l.
      * now apply Hmid.
      * rewrite Hlen. apply lookup_lt_Some in Hy. lia.
    + intros c0 c1 Hc0 Hc1. rewrite H0 in Hc0. injection Hc0 as <-.
      rewrite H1 in Hc1. injection Hc1 as <-. reflexivity.
    + intros cp cl Hcp Hcl. rewrite Hp in Hcp. injection Hcp as <-.
      rewrite Hl in Hcl. injection Hcl as <-.
      destruct (length binwave) as [|n] eqn:En; [lia|]. simpl.
      rewrite lookup_app_r; rewrite Hlen; [|lia].
      now replace (n - (S n - 1))%nat with 0%nat by lia.
Qed.

Lemma endpoints_float64_shape_witness :
  exists endpoints,
    compute_endpoints_float64 [1; 2; 4]%float = Ok endpoints /\
    length endpoints = 4%nat /\
    endpoints !! 0%nat = Some 0.5%float /\
    endpoints !! 1%nat = Some 1.5%float /\
    endpoints !! 2%nat = Some 3%float /\
    endpoints !! 3%nat = Some 5%float.
Proof.
  destruct (endpoints_float64_shape [1; 2; 4]%float) as [_ H].
  destruct H as (e & He & Hlen & Hmid & Hfirst & Hlast); [simpl; lia|].
  exists e. split; [exact He|]. split; [exact Hlen|].
  split; [exact (Hfirst _ _ eq_refl eq_refl)|].
  split; [exact (Hmid 0%nat _ _ eq_refl eq_refl)|].
  split; [exact (Hmid 1%nat _ _ eq_refl eq_refl)|].
  exact (Hlast _ _ eq_refl eq_refl).
Defined.

(** ** The pivot wavelength *)


Section Pivot.

Context {Spectrum Bandpass : Type} {C : Collaborators Spectrum Bandpass}.

(** What [pivot] returns, from the two integrals as the code computes
    them. *)
Lemma pivot_outcome (w : World Spectrum Bandpass) (c1 : Spectrum) (c2 : Bandpass) :
  component1 (self w) = Some c1 -> component2 (self w) = Some c2 ->
  let wave := composite_wave c1 c2 in
  let f := composite_call c1 c2 wave in
  let num := spectrum.trapezoidIntegration wave (multiply f wave) in
  let den := spectrum.trapezoidIntegration wave (divide f wave) in
  observation.pivot w
  = (if Qeq_bool num 0 || Qeq_bool den 0 then Ok (Rat 0) else math_sqrt (num / den), w).
Proof.
  intros Hc1 Hc2.
  destruct w as [[sp bp oc1 oc2 obw i0 il0 dw0 bf0 iw0] out]. simpl in Hc1, Hc2.
  subst oc1 oc2.
  unfold observation.pivot, bind, self_wave, self_call, getattr, ret, lift. simpl.
  destruct (Qeq_bool _ 0 || Qeq_bool _ 0); reflexivity.
Qed.

End Pivot.





(** X24. When the composite has no flux at any point of its waveset,
    [pivot] returns 0.0: the quotient of the two integrals, 0/0, is not
    formed. *)
Theorem pivot_of_zero_flux
    {Spectrum Bandpass : Type} {C : Collaborators Spectrum Bandpass}
    (w : World Spectrum Bandpass) (c1 : Spectrum) (c2 : Bandpass) :
  component1 (self w) = Some c1 -> component2 (self w) = Some c2 ->
  (forall x, x ∈ composite_call c1 c2 (composite_wave c1 c2) -> x == 0) ->
  observation.pivot w = (Ok (Rat 0), w).
Proof.
  intros Hc1 Hc2 Hzero.
  rewrite (pivot_outcome w c1 c2 Hc1 Hc2).
  set (wave := composite_wave c1 c2) in *.
  set (f := composite_call c1 c2 wave) in *.
  assert (Hlf : length f = length wave) by apply composite_call_length.
  assert (Hnum : spectrum.trapezoidIntegration wave (multiply f wave) == 0).
  { rewrite trapezoidIntegration_sum_range
      by (unfold multiply; rewrite length_zip_with; lia).
    rewrite (sum_range_ext _ (fun k => 0 * width wave k)).
    - rewrite sum_range_scale. ring.
    - intros k Hk. apply trapezoid_constant.
      + intros x Hx. unfold multiply in Hx.
        apply list_elem_of_lookup in Hx as [i Hi].
        apply lookup_zip_with_Some in Hi as (u & v & -> & Hu & _).
        rewrite (Hzero u) by (apply list_elem_of_lookup; now exists i). ring.
      + unfold multiply. rewrite length_zip_with. lia. }
  apply Qeq_eq_bool in Hnum. now rewrite Hnum.
Qed.

Lemma pivot_of_zero_flux_witness :
  let w := binned dark_spectrum flat_bandpass [150; 250] in
  observation.pivot w = (Ok (Rat 0), w).
Proof.
  intros w.
  apply (pivot_of_zero_flux w dark_spectrum flat_bandpass eq_refl eq_refl).
  intros x Hx.
  change (x ∈ (fun v => ts_flux dark_spectrum v * tb_throughput flat_bandpass v)
              <$> composite_wave dark_spectrum flat_bandpass) in Hx.
  apply list_elem_of_fmap in Hx as (y & -> & _). reflexivity.
Defined.
